(** * static-server: the request pipeline and the static-file resolver

    A shallow embedding of [index.js] of liamnewmarch/static-server:
    [urlToPath], [HttpError], [getStaticFile], [createStaticHandler] and
    [createRequestListener], over models of the Node primitives they call
    ([path.resolve], [path.parse], [fs.readFile], [http.STATUS_CODES] and
    [http.ServerResponse]). *)

From Stdlib Require Import ZArith String Ascii List Bool Lia.
From stdpp Require Import base tactics option list strings gmap pretty.

Local Open Scope string_scope.
Local Open Scope Z_scope.
Local Open Scope list_scope.

(** ** JavaScript strings *)

Module JsString.

(** [s.startsWith(p)] *)
Fixpoint startsWith (s p : string) {struct p} : bool :=
  match p, s with
  | EmptyString, _ => true
  | String _ _, EmptyString => false
  | String a p', String b s' => if Ascii.eqb a b then startsWith s' p' else false
  end.

(** [s.endsWith("/")]: the last character of [s] is a slash. *)
Fixpoint endsWithSlash (s : string) : bool :=
  match s with
  | EmptyString => false
  | String c EmptyString => Ascii.eqb c "/"
  | String _ s' => endsWithSlash s'
  end.

(** [s.split("/")]: never empty, [""] splits into one empty piece. *)
Fixpoint split (s : string) : list string :=
  match s with
  | EmptyString => [EmptyString]
  | String c s' =>
      if Ascii.eqb c "/" then EmptyString :: split s'
      else match split s' with
           | piece :: pieces => String c piece :: pieces
           | [] => [String c EmptyString]
           end
  end.

(** [pieces.join("/")] *)
Definition join (pieces : list string) : string := String.concat "/" pieces.

(** A string without a slash: what one piece of [split] is. *)
Fixpoint slashFree (s : string) : bool :=
  match s with
  | EmptyString => true
  | String c s' => negb (Ascii.eqb c "/") && slashFree s'
  end.

End JsString.

(** ** Node's [path] module (POSIX flavour) *)

Module Path.
Import JsString.

(** One step of the canonicalisation of an absolute path: the stack holds
    the segments kept so far, innermost first.  Empty segments and [.] are
    skipped, [..] drops the innermost segment (and is ignored at the root),
    anything else is pushed. *)
Definition normalizeStep (stack : list string) (segment : string) : list string :=
  if bool_decide (segment = "") || bool_decide (segment = ".") then stack
  else if bool_decide (segment = "..") then tail stack
  else segment :: stack.

Definition normalizeSegments (segments : list string) : list string :=
  reverse (foldl normalizeStep [] segments).

(** What [resolve] canonicalises: [p] itself when it is absolute, else
    [p] below the working directory. *)
Definition fullPath (cwd p : string) : string :=
  if startsWith p "/" then p else cwd +:+ "/" +:+ p.

(** [path.resolve(p)] with the process working directory [cwd]: the
    result is absolute, canonical and has no trailing slash (the root
    apart). *)
Definition resolve (cwd p : string) : string :=
  "/" +:+ join (normalizeSegments (split (fullPath cwd p))).

(** A segment a canonical path can hold: not empty and without a slash. *)
Definition cleanSegment (s : string) : Prop := slashFree s = true /\ s <> "".

(** The segments of a path, as [path.parse] and the containment test see
    them: slashes separate, repeated and trailing slashes do not count. *)
Definition segmentsOf (p : string) : list string :=
  filter (fun s => s <> "") (split p).

(** The part of [base] before its last dot, and the part from that dot on;
    [None] when [base] has no dot. *)
Fixpoint splitLastDot (base : string) : option (string * string) :=
  match base with
  | EmptyString => None
  | String c rest =>
      match splitLastDot rest with
      | Some (stem, ext) => Some (String c stem, ext)
      | None => if Ascii.eqb c "." then Some (EmptyString, base) else None
      end
  end.

Record ParsedPath := { base : string; ext : string; name : string }.

(** [path.parse(p)], the fields of the result that depend on the last
    segment.  The extension starts at the last dot of [base], unless that
    dot is the first character of [base] or [base] is [..]. *)
Definition parse (p : string) : ParsedPath :=
  let b := List.last (segmentsOf p) "" in
  match splitLastDot b with
  | None => {| base := b; ext := ""; name := b |}
  | Some (stem, e) =>
      if bool_decide (stem = "") || bool_decide (b = "..")
      then {| base := b; ext := ""; name := b |}
      else {| base := b; ext := e; name := stem |}
  end.

(** Walking along [segments] from [depth] levels below a directory never
    climbs above that directory. *)
Fixpoint staysBelow (depth : nat) (segments : list string) : bool :=
  match segments with
  | [] => true
  | segment :: rest =>
      if bool_decide (segment = "") || bool_decide (segment = ".") then staysBelow depth rest
      else if bool_decide (segment = "..") then
        match depth with
        | O => false
        | S depth' => staysBelow depth' rest
        end
      else staysBelow (S depth) rest
  end.

(** [p] is [root] or lies below it. *)
Definition isInside (root p : string) : bool :=
  bool_decide (segmentsOf root `prefix_of` segmentsOf p).

End Path.

Import JsString.

(** ** Node's [http] module *)

(** [http.STATUS_CODES]: the reason phrase of each status code Node knows. *)
Definition STATUS_CODES : gmap Z string :=
  list_to_map
    [ (100, "Continue"); (101, "Switching Protocols"); (102, "Processing");
      (103, "Early Hints");
      (200, "OK"); (201, "Created"); (202, "Accepted");
      (203, "Non-Authoritative Information"); (204, "No Content");
      (205, "Reset Content"); (206, "Partial Content"); (207, "Multi-Status");
      (208, "Already Reported"); (226, "IM Used");
      (300, "Multiple Choices"); (301, "Moved Permanently"); (302, "Found");
      (303, "See Other"); (304, "Not Modified"); (305, "Use Proxy");
      (307, "Temporary Redirect"); (308, "Permanent Redirect");
      (400, "Bad Request"); (401, "Unauthorized"); (402, "Payment Required");
      (403, "Forbidden"); (404, "Not Found"); (405, "Method Not Allowed");
      (406, "Not Acceptable"); (407, "Proxy Authentication Required");
      (408, "Request Timeout"); (409, "Conflict"); (410, "Gone");
      (411, "Length Required"); (412, "Precondition Failed");
      (413, "Payload Too Large"); (414, "URI Too Long");
      (415, "Unsupported Media Type"); (416, "Range Not Satisfiable");
      (417, "Expectation Failed"); (418, "I'm a Teapot");
      (421, "Misdirected Request"); (422, "Unprocessable Entity");
      (423, "Locked"); (424, "Failed Dependency"); (425, "Too Early");
      (426, "Upgrade Required"); (428, "Precondition Required");
      (429, "Too Many Requests"); (431, "Request Header Fields Too Large");
      (451, "Unavailable For Legal Reasons");
      (500, "Internal Server Error"); (501, "Not Implemented");
      (502, "Bad Gateway"); (503, "Service Unavailable");
      (504, "Gateway Timeout"); (505, "HTTP Version Not Supported");
      (506, "Variant Also Negotiates"); (507, "Insufficient Storage");
      (508, "Loop Detected"); (509, "Bandwidth Limit Exceeded");
      (510, "Not Extended"); (511, "Network Authentication Required") ].

(** The value of a header as the program hands it to Node: a string, or
    what a lookup that found nothing returned ([false] or [undefined]). *)
Inductive HeaderValue :=
| HvString (s : string)
| HvFalse
| HvUndefined.

(** ** HttpError *)

Module HttpError.

(** An [HttpError] instance: the two fields the constructor sets, and the
    [message] of the [Error] it extends. *)
Record t := { statusCode : Z; statusMessage : option string; message : string }.

End HttpError.

(** A thrown JavaScript value: an [HttpError], or any other error, with its
    [code] property when it has one (the errno of a system error, or the
    code of a Node error) and its message. *)
Inductive Thrown :=
| ThrowHttp (e : HttpError.t)
| ThrowError (code : option string) (message : string).

(** [error instanceof HttpError] *)
Definition instanceofHttpError (error : Thrown) : bool :=
  match error with ThrowHttp _ => true | ThrowError _ _ => false end.

(** [error.statusCode], [error.statusMessage] and [error.code];
    [None] is [undefined]. *)
Definition statusCodeOf (error : Thrown) : option Z :=
  match error with ThrowHttp e => Some (HttpError.statusCode e) | ThrowError _ _ => None end.

Definition statusMessageOf (error : Thrown) : option string :=
  match error with ThrowHttp e => HttpError.statusMessage e | ThrowError _ _ => None end.

Definition codeOf (error : Thrown) : option string :=
  match error with ThrowHttp _ => None | ThrowError c _ => c end.

(** [new HttpError(code = 400, ...args)]: the constructor either throws a
    plain [Error] or yields the instance. *)
Definition newHttpError (code : option Z) (args : list string) : Thrown + HttpError.t :=
  let code := default 400 code in
  let message := STATUS_CODES !! code in
  if (code <? 400) || (code >? 599) then
    inl (ThrowError None
           ("HTTP status code " +:+ pretty code +:+ ": "
              +:+ default "undefined" message +:+ " is not an error"))
  else
    inr {| HttpError.statusCode := code;
           HttpError.statusMessage := message;
           HttpError.message := default "" (head args) |}.

(** ** The response object ([http.ServerResponse]) *)

Module Response.

(** The life of a response: no header block yet ([Open], the status code
    and the headers set so far are still changeable), header block written
    ([HeadWritten], body chunks may follow), and ended ([Finished]).
    The header table is keyed by lower-cased field name, as Node keeps it. *)
Inductive t :=
| Open (statusCode : Z) (headers : gmap string HeaderValue)
| HeadWritten (statusCode : Z) (headers : gmap string HeaderValue) (body : string)
| Finished (statusCode : Z) (headers : gmap string HeaderValue) (body : string).

(** The response of a request no handler has touched. *)
Definition fresh : t := Open 200 ∅.

Definition statusCode (r : t) : Z :=
  match r with Open c _ | HeadWritten c _ _ | Finished c _ _ => c end.

Definition headers (r : t) : gmap string HeaderValue :=
  match r with Open _ h | HeadWritten _ h _ | Finished _ h _ => h end.

(** The bytes written so far. *)
Definition body (r : t) : string :=
  match r with Open _ _ => "" | HeadWritten _ _ b | Finished _ _ b => b end.

(** [response.writableEnded] *)
Definition writableEnded (r : t) : bool :=
  match r with Finished _ _ _ => true | _ => false end.

Definition lowerAscii (c : ascii) : ascii :=
  let n := nat_of_ascii c in
  if (65 <=? n)%nat && (n <=? 90)%nat then ascii_of_nat (n + 32) else c.

Fixpoint toLowerCase (s : string) : string :=
  match s with
  | EmptyString => EmptyString
  | String c s' => String (lowerAscii c) (toLowerCase s')
  end.

Definition ERR_HTTP_HEADERS_SENT : Thrown :=
  ThrowError (Some "ERR_HTTP_HEADERS_SENT")
    "Cannot write headers after they are sent to the client".
Definition ERR_HTTP_INVALID_STATUS_CODE : Thrown :=
  ThrowError (Some "ERR_HTTP_INVALID_STATUS_CODE") "Invalid status code".
Definition ERR_HTTP_INVALID_HEADER_VALUE : Thrown :=
  ThrowError (Some "ERR_HTTP_INVALID_HEADER_VALUE") "Invalid value for header".

(** The headers of an object literal, entered into the table in order. *)
Definition setHeaders (obj : list (string * HeaderValue))
    (table : gmap string HeaderValue) : gmap string HeaderValue :=
  foldl (fun acc kv => <[toLowerCase kv.1 := kv.2]> acc) table obj.

Definition isUndefined (v : HeaderValue) : bool :=
  match v with HvUndefined => true | _ => false end.

(** [response.writeHead(statusCode, headers)]: throws
    [ERR_HTTP_HEADERS_SENT] once the header block exists (Node refuses the
    call itself, or the [setHeader] it makes for a header it is given),
    throws on a status code that is no number in 100..999 and on a header
    whose value is [undefined]; otherwise the block is written, with the
    given headers entered over those set before. *)
Definition writeHead (code : option Z) (obj : list (string * HeaderValue))
    (r : t) : Thrown + t :=
  match r with
  | Open _ table =>
      match code with
      | Some c =>
          if (c <? 100) || (c >? 999) then inl ERR_HTTP_INVALID_STATUS_CODE
          else if existsb (fun kv => isUndefined kv.2) obj
               then inl ERR_HTTP_INVALID_HEADER_VALUE
               else inr (HeadWritten c (setHeaders obj table) "")
      | None => inl ERR_HTTP_INVALID_STATUS_CODE
      end
  | _ => inl ERR_HTTP_HEADERS_SENT
  end.

(** [response.setHeader(name, value)] *)
Definition setHeader (name : string) (value : HeaderValue) (r : t) : Thrown + t :=
  match r with
  | Open c table =>
      if isUndefined value then inl ERR_HTTP_INVALID_HEADER_VALUE
      else inr (Open c (<[toLowerCase name := value]> table))
  | _ => inl ERR_HTTP_HEADERS_SENT
  end.

(** [response.write(chunk)]: writes the header block first when there is
    none; after the end the chunk is dropped (Node reports that on the
    stream, it does not throw). *)
Definition write (chunk : string) (r : t) : t :=
  match r with
  | Open c table => HeadWritten c table chunk
  | HeadWritten c table b => HeadWritten c table (b +:+ chunk)
  | Finished _ _ _ => r
  end.

(** [response.end(chunk, 'utf-8')]; [None] is an [undefined] chunk. *)
Definition end_ (chunk : option string) (r : t) : t :=
  match r with
  | Open c table => Finished c table (default "" chunk)
  | HeadWritten c table b => Finished c table (b +:+ default "" chunk)
  | Finished _ _ _ => r
  end.

End Response.

(** ** The world of one request *)

Record Request := { url : string; method : string }.

(** What [fs.readFile] can find at a path. *)
Inductive Entry :=
| File (content : string)
| Unreadable
| Directory
| Faulty (errno : string).

Inductive Colour := Blue | Green | Yellow | Red.

(** [response]: the response object; [next]: the [next] variable of the
    iteration in progress; [reads]: the paths [fs.readFile] was called on,
    oldest first; [stdout], [stderr]: what was logged. *)
Record World := {
  response : Response.t;
  next : bool;
  reads : list string;
  stdout : list (Colour * Z * string);
  stderr : list Thrown
}.

Definition initialWorld : World :=
  {| response := Response.fresh; next := false; reads := []; stdout := []; stderr := [] |}.

Definition withResponse (r : Response.t) (w : World) : World :=
  {| response := r; next := next w; reads := reads w; stdout := stdout w; stderr := stderr w |}.
Definition withNext (b : bool) (w : World) : World :=
  {| response := response w; next := b; reads := reads w; stdout := stdout w; stderr := stderr w |}.
Definition withRead (p : string) (w : World) : World :=
  {| response := response w; next := next w; reads := reads w ++ [p]; stdout := stdout w; stderr := stderr w |}.
Definition withStdout (l : Colour * Z * string) (w : World) : World :=
  {| response := response w; next := next w; reads := reads w; stdout := stdout w ++ [l]; stderr := stderr w |}.
Definition withStderr (e : Thrown) (w : World) : World :=
  {| response := response w; next := next w; reads := reads w; stdout := stdout w; stderr := stderr w ++ [e] |}.

(** How a piece of code completes: normally with a value, or by throwing. *)
Inductive Completion (A : Type) :=
| Normal (a : A)
| Abrupt (error : Thrown).
Arguments Normal {A} a.
Arguments Abrupt {A} error.

(** Code that runs against the world of a request. *)
Definition M (A : Type) : Type := World -> Completion A * World.

Definition ret {A} (a : A) : M A := fun w => (Normal a, w).
Definition throw {A} (error : Thrown) : M A := fun w => (Abrupt error, w).
Definition bind {A B} (m : M A) (k : A -> M B) : M B :=
  fun w => match m w with
           | (Normal a, w') => k a w'
           | (Abrupt error, w') => (Abrupt error, w')
           end.
(** [try { body } catch (error) { handler }] *)
Definition tryCatch {A} (body : M A) (handler : Thrown -> M A) : M A :=
  fun w => match body w with
           | (Normal a, w') => (Normal a, w')
           | (Abrupt error, w') => handler error w'
           end.

Declare Scope js_scope.
Delimit Scope js_scope with js.
Notation "x <- m ;; k" := (bind m (fun x => k))
  (at level 100, m at next level, right associativity) : js_scope.
Notation "m ;; k" := (bind m (fun _ => k))
  (at level 100, right associativity) : js_scope.
Local Open Scope js_scope.

Definition getsWorld {A} (f : World -> A) : M A := fun w => (Normal (f w), w).
Definition modifyWorld (f : World -> World) : M unit := fun w => (Normal tt, f w).
Definition liftThrown {A} (r : Thrown + A) : M A :=
  match r with inl error => throw error | inr a => ret a end.

(** [throw new HttpError(code)] *)
Definition throwNewHttpError {A} (code : Z) : M A :=
  e <- liftThrown (newHttpError (Some code) []) ;; throw (ThrowHttp e).

(** [response.writeHead(code, headers)] and [response.end(chunk, 'utf-8')]
    on the response of the request. *)
Definition responseWriteHead (code : option Z) (obj : list (string * HeaderValue)) : M unit :=
  fun w => match Response.writeHead code obj (response w) with
           | inl error => (Abrupt error, w)
           | inr r => (Normal tt, withResponse r w)
           end.
Definition responseEnd (chunk : option string) : M unit :=
  modifyWorld (fun w => withResponse (Response.end_ chunk (response w)) w).
Definition responseWrite (chunk : string) : M unit :=
  modifyWorld (fun w => withResponse (Response.write chunk (response w)) w).
Definition responseSetHeader (name : string) (value : HeaderValue) : M unit :=
  fun w => match Response.setHeader name value (response w) with
           | inl error => (Abrupt error, w)
           | inr r => (Normal tt, withResponse r w)
           end.

(** [color(code)]: the colour a status code is logged in. *)
Definition color (code : Z) : Colour * Z :=
  if code <? 200 then (Blue, code)
  else if code <? 300 then (Green, code)
  else if code <? 400 then (Yellow, code)
  else (Red, code).

(** [console.log(color(code), url)] and [console.error(error)] *)
Definition consoleLog (c : Colour * Z) (u : string) : M unit :=
  modifyWorld (withStdout (c, u)).
Definition consoleError (error : Thrown) : M unit :=
  modifyWorld (withStderr error).

(** ** The program *)

Module StaticFile.
(** What [getStaticFile] returns: [{ body, headers, statusCode }]. *)
Record t := {
  body : string;
  headers : list (string * HeaderValue);
  statusCode : Z
}.
End StaticFile.

(** A handler is called with the request, the response (the one of the
    world) and the [next] callback. *)
Definition Handler : Type := Request -> M unit -> M unit.

Section Server.

(** The process working directory, the file system as [fs.readFile] sees
    it during the request, and [mimeTypes.contentType]. *)
Variable cwd : string.
Variable fs : string -> option Entry.
Variable contentType : string -> HeaderValue.

(** [urlToPath(directory = '.', url)]; [None] is an omitted directory. *)
Definition urlToPath (directory : option string) (url : string) : string :=
  Path.resolve cwd
    (default "." directory +:+ (if endsWithSlash url then url +:+ "/index.html" else url)).

(** [await fs.readFile(path)] *)
Definition readFile (path : string) : M string :=
  fun w =>
    let w' := withRead path w in
    match fs path with
    | Some (File content) => (Normal content, w')
    | Some Unreadable => (Abrupt (ThrowError (Some "EACCES") "permission denied"), w')
    | Some Directory =>
        (Abrupt (ThrowError (Some "EISDIR") "illegal operation on a directory"), w')
    | Some (Faulty errno) => (Abrupt (ThrowError (Some errno) "read failed"), w')
    | None => (Abrupt (ThrowError (Some "ENOENT") "no such file or directory"), w')
    end.

Definition getStaticFile (request : Request) (directory : option string)
    : M StaticFile.t :=
  tryCatch
    (let filePath := urlToPath directory (url request) in
     let parsed := Path.parse filePath in
     (if startsWith (Path.name parsed) "." then throwNewHttpError 403 else ret tt) ;;
     content <- readFile filePath ;;
     ret {| StaticFile.body := content;
            StaticFile.headers := [("Content-Type", contentType (Path.ext parsed))];
            StaticFile.statusCode := 200 |})
    (fun error =>
       if instanceofHttpError error then throw error
       else if bool_decide (codeOf error = Some "EACCES") then throwNewHttpError 403
       else if bool_decide (codeOf error = Some "EISDIR") then
         ret {| StaticFile.body := "";
                StaticFile.headers := [("Location", HvString (url request +:+ "/"))];
                StaticFile.statusCode := 302 |}
       else if bool_decide (codeOf error = Some "ENOENT") then throwNewHttpError 404
       else (consoleError error ;; throwNewHttpError 500)).

Definition createStaticHandler (directory : option string) : Handler :=
  fun request next =>
    tryCatch
      (file <- getStaticFile request directory ;;
       responseWriteHead (Some (StaticFile.statusCode file)) (StaticFile.headers file) ;;
       responseEnd (Some (StaticFile.body file)))
      (fun error =>
         if bool_decide (statusCodeOf error = Some 404) then next
         else throw error).

(** The handlers [staticServer({ directory = '.', handlers = [] })] hands
    to [createRequestListener]: the caller's, and after them, when the
    directory is not the empty string, the static handler of that
    directory.  (The [fs.stat] of the directory, which only decides
    whether the server starts, is left out.) *)
Definition serverHandlers (directory : option string) (handlers : list Handler)
    : list Handler :=
  let directory := default "." directory in
  if bool_decide (directory = "") then handlers
  else handlers ++ [createStaticHandler (Some directory)].

End Server.

(** The [for] loop of the request listener: each handler is called with
    [next] reset, and the loop breaks when the handler did not call [next]
    or the response has ended. *)
Fixpoint runHandlers (handlers : list Handler) (request : Request) : M unit :=
  match handlers with
  | [] => ret tt
  | handler :: rest =>
      modifyWorld (withNext false) ;;
      handler request (modifyWorld (withNext true)) ;;
      called <- getsWorld next ;;
      ended <- getsWorld (fun w => Response.writableEnded (response w)) ;;
      if negb called || ended then ret tt
      else runHandlers rest request
  end.

(** The listener [createRequestListener(handlers)] returns. *)
Definition createRequestListener (handlers : list Handler) (request : Request) : M unit :=
  tryCatch
    (runHandlers handlers request ;;
     ended <- getsWorld (fun w => Response.writableEnded (response w)) ;;
     if ended then
       code <- getsWorld (fun w => Response.statusCode (response w)) ;;
       consoleLog (color code) (url request)
     else throwNewHttpError 404)
    (fun error =>
       tryCatch
         (match error with
          | ThrowHttp e =>
              consoleLog (color (HttpError.statusCode e)) (url request) ;;
              throw error
          | ThrowError _ _ =>
              consoleError error ;;
              throwNewHttpError 500
          end)
         (fun error =>
            responseWriteHead (statusCodeOf error) [("Content-Type", HvString "text/plain")] ;;
            responseEnd (statusMessageOf error))).

(** ** Vocabulary of the properties *)

(** The [HttpError] of a status code with a reason phrase, as
    [new HttpError(code)] builds it. *)
Definition httpError (code : Z) (phrase : string) : HttpError.t :=
  {| HttpError.statusCode := code;
     HttpError.statusMessage := Some phrase;
     HttpError.message := "" |}.

(** The header table once the render step has set its content type. *)
Definition plainText (table : gmap string HeaderValue) : gmap string HeaderValue :=
  <["content-type" := HvString "text/plain"]> table.

(** The last [catch] block of the listener, on its own: the render step. *)
Definition renderError (error : Thrown) : M unit :=
  responseWriteHead (statusCodeOf error) [("Content-Type", HvString "text/plain")] ;;
  responseEnd (statusMessageOf error).

(** The paths read between the worlds [w] and [w']. *)
Definition newReads (w w' : World) : list string :=
  drop (length (reads w)) (reads w').

(** ** A concrete server, for examples *)

Module Scenario.

Definition cwd : string := "/home/app".

(** [public/] holds [index.html], [.env], a directory [docs], a repository
    directory [.git] with its [config], and a file of unknown type;
    [secret.txt] lies beside [public/]. *)
Definition fs (p : string) : option Entry :=
  if bool_decide (p = "/home/app/public/index.html") then Some (File "<h1>hi</h1>")
  else if bool_decide (p = "/home/app/public/.env") then Some (File "KEY=1")
  else if bool_decide (p = "/home/app/public/docs") then Some Directory
  else if bool_decide (p = "/home/app/public/.git") then Some Directory
  else if bool_decide (p = "/home/app/public/.git/config") then Some (File "[core]")
  else if bool_decide (p = "/home/app/public/.git/index.html") then Some (File "<h1>git</h1>")
  else if bool_decide (p = "/home/app/public/blob.zzz") then Some (File "blob")
  else if bool_decide (p = "/home/app/secret.txt") then Some (File "hunter2")
  else None.

(** [mimeTypes.contentType] on the extensions used here: the package
    returns [false] for an extension it does not know. *)
Definition contentType (extension : string) : HeaderValue :=
  if bool_decide (extension = ".html") then HvString "text/html; charset=utf-8"
  else if bool_decide (extension = ".txt") then HvString "text/plain; charset=utf-8"
  else HvFalse.

Definition get (u : string) : Request := {| url := u; method := "GET" |}.

Definition staticHandler : Handler :=
  createStaticHandler cwd fs contentType (Some "public").

(** A handler that only defers to the next one. *)
Definition passOn : Handler := fun _ next => next.

(** A handler that answers every request. *)
Definition hello : Handler :=
  fun _ _ =>
    responseWriteHead (Some 200) [("Content-Type", HvString "text/plain")] ;;
    responseEnd (Some "Hello, world!").

(** A handler that does nothing at all. *)
Definition idle : Handler := fun _ _ => ret tt.

(** A handler that fails before it touched the response. *)
Definition explode : Handler :=
  fun _ _ => throw (ThrowError None "connect ECONNREFUSED db.internal:5432").

(** A handler that writes the start of the page and defers to the next
    handler for the rest. *)
Definition preamble : Handler :=
  fun _ next =>
    responseSetHeader "Content-Type" (HvString "text/html") ;;
    responseWrite "<!doctype html>" ;;
    next.

(** A handler that fails after it began to write. *)
Definition partialThenThrow : Handler :=
  fun _ _ =>
    responseSetHeader "Content-Type" (HvString "text/plain") ;;
    responseWrite "partial" ;;
    throw (ThrowError None "disk full").

(** A handler that fails after it answered. *)
Definition respondThenThrow : Handler :=
  fun _ _ =>
    responseSetHeader "Content-Type" (HvString "text/plain") ;;
    responseEnd (Some "Hello, world!") ;;
    throw (ThrowError None "audit log unavailable").

End Scenario.

(** A segment of a canonical path: clean, and neither [.] nor [..]. *)
Definition ordinarySegment (s : string) : Prop :=
  Path.cleanSegment s /\ s <> "." /\ s <> "..".

(** A file system with a file that may not be read and one whose read
    fails with an I/O error, beside those of [Scenario.fs]. *)
Definition troubledFs (p : string) : option Entry :=
  if bool_decide (p = "/home/app/public/locked.txt") then Some Unreadable
  else if bool_decide (p = "/home/app/public/broken.txt") then Some (Faulty "EIO")
  else Scenario.fs p.

(** ** Server start-up ([staticServer]) *)

(** What [fs.stat] reports for a path: a directory, something that is not
    a directory, or a failure with its [code] and message. *)
Inductive Stat :=
| IsDirectory
| NotDirectory
| StatFails (code : option string) (message : string).

Module Config.
(** The argument of [staticServer]: [{ directory, handlers, ...options }];
  [None] is a property left out. *)
Record t := {
directory : option string;
handlers : option (list Handler);
host : option string;
port : option string;
ipv6Only : bool
}.
End Config.

(** How [staticServer] ends: with a server listening, bound to the listener
    of [handlers], or with [exit(1)] after logging "Server error" and the
    message. *)
Inductive Startup :=
| Listening (handlers : list Handler) (host port : option string) (ipv6Only : bool)
| Exited (code : Z) (message : string).

(** [error.message], as the outer [catch ({ message })] reads it. *)
Definition messageOf (error : Thrown) : string :=
  match error with
  | ThrowHttp e => HttpError.message e
  | ThrowError _ message => message
  end.

Section Bootstrap.

Variable cwd : string.
Variable stat : string -> Stat.
Variable fs : string -> option Entry.
Variable contentType : string -> HeaderValue.

(** The inner [try]/[catch] of [staticServer]: the directory is resolved
  and looked at; what fails is given a message of its own when its code
  is ENOENT or EACCES, and thrown on as it is otherwise. *)
Definition checkDirectory (directory : string) : Thrown + unit :=
let attempt : Thrown + unit :=
  match stat (Path.resolve cwd directory) with
  | IsDirectory => inr tt
  | NotDirectory => inl (ThrowError None "not a directory")
  | StatFails code message => inl (ThrowError code message)
  end in
match attempt with
| inr done => inr done
| inl error =>
    if bool_decide (codeOf error = Some "ENOENT") then
      inl (ThrowError None ("directory not found " +:+ directory))
    else if bool_decide (codeOf error = Some "EACCES") then
      inl (ThrowError None ("permission denied " +:+ directory))
    else inl error
end.

(** [staticServer({ directory = '.', handlers = [], ...options } = {})],
  up to the call of [server.listen]. *)
Definition staticServer (config : Config.t) : Startup :=
let directory := default "." (Config.directory config) in
let handlers := default [] (Config.handlers config) in
let prepared : Thrown + list Handler :=
  if bool_decide (directory = "") then inr handlers
  else match checkDirectory directory with
       | inl error => inl error
       | inr _ =>
           inr (handlers ++ [createStaticHandler cwd fs contentType (Some directory)])
       end in
match prepared with
| inr handlers =>
    Listening handlers (Config.host config) (Config.port config) (Config.ipv6Only config)
| inl error => Exited 1 (messageOf error)
end.

End Bootstrap.

(** What [fs.stat] finds around [Scenario.cwd]: the working directory and
    [public] are directories, [README.md] is a file, [private] may not be
    looked at, [loop] is a circle of links, and nothing else is there. *)
Definition exampleStat (p : string) : Stat :=
  if bool_decide (p = "/home/app") then IsDirectory
  else if bool_decide (p = "/home/app/public") then IsDirectory
  else if bool_decide (p = "/home/app/README.md") then NotDirectory
  else if bool_decide (p = "/home/app/private") then
    StatFails (Some "EACCES") "EACCES: permission denied, stat"
  else if bool_decide (p = "/home/app/loop") then
    StatFails (Some "ELOOP") "ELOOP: too many symbolic links encountered, stat"
  else StatFails (Some "ENOENT") "ENOENT: no such file or directory, stat".

(** A configuration that names a directory and nothing else. *)
Definition serve (directory : string) : Config.t :=
  {| Config.directory := Some directory;
     Config.handlers := None;
     Config.host := None;
     Config.port := None;
     Config.ipv6Only := false |}.

(** ** The command line ([cli.js]) *)

Module Cli.

(** The environment variables the program reads; [None] is an unset one. *)
Record Env := {
STATIC_DIR : option string;
STATIC_HOST : option string;
STATIC_PORT : option string;
PORT : option string
}.

(** The [options] object; [None] is [undefined], and [ipv6Only] is [false]
  until the flag sets it. *)
Record Options := {
directory : option string;
host : option string;
port : option string;
ipv6Only : bool
}.

Definition version : string := "0.1.0".

(** What the program printed before it exited. *)
Inductive Printed :=
| PrintedVersion (text : string)
| PrintedUsage
| PrintedError (message : string).

(** How the argument loop ends: all arguments read, or [exit(code)]. *)
Inductive Outcome :=
| Run (options : Options)
| Exit (code : Z) (printed : Printed).

(** [a || b] on values that are strings or [undefined]. *)
Definition orElse (a b : option string) : option string :=
match a with
| Some s => if bool_decide (s = "") then b else a
| None => b
end.

(** The options taken from the environment. *)
Definition envOptions (env : Env) : Options :=
{| directory := STATIC_DIR env;
   host := STATIC_HOST env;
   port := orElse (STATIC_PORT env) (PORT env);
   ipv6Only := false |}.

Definition withDirectory (v : option string) (o : Options) : Options :=
{| directory := v; host := host o; port := port o; ipv6Only := ipv6Only o |}.
Definition withHost (v : option string) (o : Options) : Options :=
{| directory := directory o; host := v; port := port o; ipv6Only := ipv6Only o |}.
Definition withPort (v : option string) (o : Options) : Options :=
{| directory := directory o; host := host o; port := v; ipv6Only := ipv6Only o |}.
Definition withIpv6Only (o : Options) : Options :=
{| directory := directory o; host := host o; port := port o; ipv6Only := true |}.

Definition isFlag (flag short long : string) : bool :=
bool_decide (flag = short) || bool_decide (flag = long).

(** The [while (args.length)] loop: each turn shifts a flag and, for the
  flags that take one, a value ([undefined] when the arguments ran out). *)
Fixpoint parseArgs (args : list string) (options : Options) : Outcome :=
match args with
| [] => Run options
| flag :: rest =>
    if isFlag flag "-V" "--version" then Exit 0 (PrintedVersion version)
    else if isFlag flag "-h" "--help" then Exit 0 PrintedUsage
    else if isFlag flag "-6" "--ipv6" then parseArgs rest (withIpv6Only options)
    else if isFlag flag "-d" "--directory" then
      match rest with
      | [] => Run (withDirectory None options)
      | value :: rest' => parseArgs rest' (withDirectory (Some value) options)
      end
    else if isFlag flag "-H" "--host" then
      match rest with
      | [] => Run (withHost None options)
      | value :: rest' => parseArgs rest' (withHost (Some value) options)
      end
    else if isFlag flag "-p" "--port" then
      match rest with
      | [] => Run (withPort None options)
      | value :: rest' => parseArgs rest' (withPort (Some value) options)
      end
    else Exit 1 (PrintedError ("Unknown argument " +:+ flag))
end.


(** A flag that takes a value. *)
Definition takesValue (flag : string) : bool :=
isFlag flag "-d" "--directory" || isFlag flag "-H" "--host" || isFlag flag "-p" "--port".

(** Arguments in which every flag that takes a value has one. *)
Fixpoint complete (args : list string) : bool :=
match args with
| [] => true
| flag :: rest =>
    if takesValue flag then
      match rest with
      | [] => false
      | _ :: rest' => complete rest'
      end
    else complete rest
end.

End Cli.


(** * Properties *)

#[local] Arguments Ascii.eqb : simpl never.

(** ** Strings and paths *)

Section StringFacts.

Lemma append_cons (c : ascii) (a b : string) : String c a +:+ b = String c (a +:+ b).
Proof. reflexivity. Qed.

Lemma append_nil_l (b : string) : "" +:+ b = b.
Proof. reflexivity. Qed.

Lemma append_assoc (a b c : string) : (a +:+ b) +:+ c = a +:+ (b +:+ c).
Proof.
  induction a as [|x a IH]; [reflexivity |].
  rewrite !append_cons. f_equal. exact IH.
Qed.

Lemma split_nonempty (s : string) : split s <> [].
Proof.
  induction s as [|c s IH]; simpl; [discriminate |].
  destruct (Ascii.eqb c "/"); [discriminate |].
  destruct (split s); discriminate.
Qed.

(** Splitting distributes over a slash. *)
Lemma split_append_slash (a b : string) :
  split (a +:+ String "/" b) = split a ++ split b.
Proof.
  induction a as [|c a IH].
  - reflexivity.
  - rewrite append_cons. simpl. rewrite IH.
    destruct (Ascii.eqb c "/"); [reflexivity |].
    pose proof (split_nonempty a) as Hne.
    destruct (split a); [contradiction | reflexivity].
Qed.

Lemma split_slashFree (s : string) : Forall (fun x => slashFree x = true) (split s).
Proof.
  induction s as [|c s IH]; simpl.
  - constructor; [reflexivity | constructor].
  - destruct (Ascii.eqb c "/") eqn:Hc.
    + constructor; [reflexivity | exact IH].
    + destruct (split s) as [|piece pieces]; inversion IH; subst.
      * constructor; [simpl; now rewrite Hc | constructor].
      * constructor; [simpl; rewrite Hc; simpl; assumption | assumption].
Qed.

Lemma split_of_slashFree (s : string) : slashFree s = true -> split s = [s].
Proof.
  induction s as [|c s IH]; simpl; [reflexivity |].
  intros H. apply andb_prop in H as [Hc Hs].
  apply negb_true_iff in Hc. rewrite Hc, (IH Hs). reflexivity.
Qed.

Lemma join_cons2 (p q : string) (rest : list string) :
  join (p :: q :: rest) = p +:+ String "/" (join (q :: rest)).
Proof. reflexivity. Qed.

(** Joining slash-free pieces and splitting again gives the pieces back. *)
Lemma split_join (pieces : list string) :
  pieces <> [] -> Forall (fun x => slashFree x = true) pieces ->
  split (join pieces) = pieces.
Proof.
  induction pieces as [|p rest IH]; [congruence |].
  intros _ Hall. inversion Hall as [|? ? Hp Hrest]; subst.
  destruct rest as [|q rest'].
  - simpl. now apply split_of_slashFree.
  - rewrite join_cons2, split_append_slash, IH by (assumption || discriminate).
    now rewrite (split_of_slashFree p Hp).
Qed.

Lemma startsWith_append (a b : string) (c : ascii) :
  a <> "" -> startsWith (a +:+ b) (String c "") = startsWith a (String c "").
Proof.
  destruct a as [|x a]; [congruence |]. intros _. rewrite append_cons. simpl.
  destruct (Ascii.eqb c x); [destruct a, b |]; reflexivity.
Qed.

Lemma startsWith_slash_inv (s : string) :
  startsWith s "/" = true -> exists rest, s = String "/" rest.
Proof.
  destruct s as [|c s]; simpl; [discriminate |].
  destruct (Ascii.eqb_spec "/" c) as [<-|]; [eauto | discriminate].
Qed.

Lemma endsWithSlash_cons (c : ascii) (s : string) :
  s <> "" -> endsWithSlash (String c s) = endsWithSlash s.
Proof. destruct s; [congruence | reflexivity]. Qed.

Lemma endsWithSlash_append_piece (pre seg : string) :
  seg <> "" -> slashFree seg = true -> endsWithSlash (pre +:+ String "/" seg) = false.
Proof.
  intros Hne Hfree.
  assert (Hseg : endsWithSlash seg = false).
  { induction seg as [|d seg IH]; [congruence |].
    simpl in Hfree. apply andb_prop in Hfree as [Hd Hs].
    destruct seg as [|e seg'].
    - simpl. now apply negb_true_iff in Hd.
    - rewrite endsWithSlash_cons by discriminate. apply IH; [discriminate | assumption]. }
  induction pre as [|c pre IH].
  - rewrite append_nil_l, endsWithSlash_cons; assumption.
  - rewrite append_cons, endsWithSlash_cons; [exact IH |].
    destruct pre; discriminate.
Qed.

End StringFacts.

Section PathFacts.
Import Path.

Lemma normalizeStep_skip (stack : list string) (s : string) :
  s = "" \/ s = "." -> normalizeStep stack s = stack.
Proof. intros [-> | ->]; reflexivity. Qed.

Lemma normalizeStep_push (stack : list string) (s : string) :
  s <> "" -> s <> "." -> s <> ".." -> normalizeStep stack s = s :: stack.
Proof.
  intros H1 H2 H3. unfold normalizeStep.
  rewrite !bool_decide_eq_false_2 by assumption. reflexivity.
Qed.

Lemma normalizeStep_clean (stack : list string) (s : string) :
  slashFree s = true -> Forall cleanSegment stack ->
  Forall cleanSegment (normalizeStep stack s).
Proof.
  intros Hs Hst. unfold normalizeStep.
  destruct (bool_decide (s = "")) eqn:E1; [assumption |].
  destruct (bool_decide (s = ".")) eqn:E2; [assumption |]. simpl.
  destruct (bool_decide (s = "..")).
  - destruct stack; [constructor | now inversion Hst].
  - constructor; [| assumption]. split; [assumption |].
    now apply bool_decide_eq_false in E1.
Qed.

Lemma foldl_normalizeStep_clean (segments stack : list string) :
  Forall (fun x => slashFree x = true) segments -> Forall cleanSegment stack ->
  Forall cleanSegment (foldl normalizeStep stack segments).
Proof.
  revert stack. induction segments as [|s rest IH]; intros stack Hs Hst; [assumption |].
  inversion Hs; subst. simpl. apply IH; [assumption |].
  now apply normalizeStep_clean.
Qed.

Lemma normalizeSegments_clean (s : string) :
  Forall cleanSegment (normalizeSegments (split s)).
Proof.
  unfold normalizeSegments. apply Forall_reverse.
  apply foldl_normalizeStep_clean; [apply split_slashFree | constructor].
Qed.

Lemma filter_clean (l : list string) :
  Forall cleanSegment l -> filter (fun s => s <> "") l = l.
Proof.
  induction 1 as [|x l [_ Hx] _ IH]; [reflexivity |].
  rewrite filter_cons_True by assumption. now rewrite IH.
Qed.

(** The segments of an absolute path written from clean segments. *)
Lemma segmentsOf_absolute (l : list string) :
  Forall cleanSegment l -> segmentsOf ("/" +:+ join l) = l.
Proof.
  intros Hl. unfold segmentsOf.
  change ("/" +:+ join l) with (String "/" (join l)).
  change (split (String "/" (join l))) with ("" :: split (join l)).
  rewrite filter_cons_False by (intros H; now apply H).
  destruct l as [|x l'] eqn:El; [reflexivity |]. rewrite <- El in *.
  rewrite split_join.
  - now apply filter_clean.
  - subst; discriminate.
  - eapply Forall_impl; [exact Hl | intros ? [? _]; assumption].
Qed.

Lemma segmentsOf_resolve (cwd p : string) :
  segmentsOf (resolve cwd p) = normalizeSegments (split (fullPath cwd p)).
Proof. unfold resolve. apply segmentsOf_absolute, normalizeSegments_clean. Qed.

(** A walk that never climbs above the directory leaves its segments in place. *)
Lemma foldl_normalizeStep_below (segments extra root : list string) :
  staysBelow (length extra) segments = true ->
  exists extra', foldl normalizeStep (extra ++ root) segments = extra' ++ root.
Proof.
  revert extra. induction segments as [|s rest IH]; intros extra H; simpl in *.
  - now exists extra.
  - unfold normalizeStep.
    destruct (bool_decide (s = "") || bool_decide (s = ".")); [now apply IH |].
    destruct (bool_decide (s = "..")).
    + destruct extra as [|e extra']; [discriminate |]. simpl in *. now apply IH.
    + apply (IH (s :: extra)). exact H.
Qed.

Lemma fullPath_append (cwd directory rest : string) :
  directory <> "" ->
  fullPath cwd (directory +:+ String "/" rest) = fullPath cwd directory +:+ String "/" rest.
Proof.
  intros Hne. unfold fullPath. rewrite startsWith_append by assumption.
  destruct (startsWith directory "/"); [reflexivity |].
  now rewrite !append_assoc.
Qed.

(** The canonical stack of [directory + "/" + rest] is the one of
    [directory], walked further along the segments of [rest]. *)
Lemma foldl_fullPath_append (cwd directory rest : string) :
  directory <> "" ->
  foldl normalizeStep [] (split (fullPath cwd (directory +:+ String "/" rest)))
  = foldl normalizeStep (foldl normalizeStep [] (split (fullPath cwd directory))) (split rest).
Proof.
  intros Hne. now rewrite fullPath_append, split_append_slash, foldl_app.
Qed.

End PathFacts.

Section ParseFacts.
Import Path.

Lemma splitLastDot_append (b stem e : string) :
  splitLastDot b = Some (stem, e) -> b = stem +:+ e.
Proof.
  revert stem. induction b as [|c b IH]; intros stem; simpl; [discriminate |].
  destruct (splitLastDot b) as [[stem' e']|].
  - intros [= <- <-]. rewrite append_cons. f_equal. now apply IH.
  - destruct (Ascii.eqb c "."); [intros [= <- <-]; reflexivity | discriminate].
Qed.

Lemma parse_base (p : string) : base (parse p) = List.last (segmentsOf p) "".
Proof.
  unfold parse. destruct (splitLastDot _) as [[stem e]|]; [| reflexivity].
  destruct (_ || _); reflexivity.
Qed.

(** The name [parse] returns starts with a dot exactly when the base does. *)
Lemma parse_name_dot (p : string) :
  startsWith (name (parse p)) "." = startsWith (base (parse p)) ".".
Proof.
  unfold parse. generalize (List.last (segmentsOf p) ""). intros b.
  destruct (splitLastDot b) as [[stem e]|] eqn:E; [| reflexivity].
  destruct (bool_decide (stem = "")) eqn:Hstem; [reflexivity |].
  destruct (bool_decide (b = "..")); [reflexivity |]. simpl.
  apply bool_decide_eq_false in Hstem.
  rewrite (splitLastDot_append _ _ _ E).
  symmetry. now apply startsWith_append.
Qed.

Lemma last_snoc (l : list string) (x d : string) : List.last (l ++ [x]) d = x.
Proof. apply List.last_last. Qed.

(** The base of a resolved path that ends in an ordinary segment. *)
Lemma base_resolve_append (cwd x seg : string) :
  slashFree seg = true -> seg <> "" -> seg <> "." -> seg <> ".." ->
  base (parse (resolve cwd (x +:+ String "/" seg))) = seg.
Proof.
  intros Hfree H1 H2 H3.
  rewrite parse_base, segmentsOf_resolve. unfold normalizeSegments.
  assert (exists pre, split (fullPath cwd (x +:+ String "/" seg)) = pre ++ [seg])
    as [pre ->].
  { destruct (decide (x = "")) as [-> | Hx].
    - exists [""]. rewrite append_nil_l. unfold fullPath. simpl.
      change (split (String "/" seg)) with ("" :: split seg).
      now rewrite split_of_slashFree.
    - exists (split (fullPath cwd x)).
      rewrite fullPath_append, split_append_slash by assumption.
      now rewrite (split_of_slashFree seg). }
  rewrite foldl_app. simpl. rewrite normalizeStep_push by assumption.
  rewrite reverse_cons. apply last_snoc.
Qed.

Lemma not_dot_segment (seg : string) :
  seg <> "" -> startsWith seg "." = false -> seg <> "." /\ seg <> "..".
Proof. intros _ H. split; intros ->; discriminate. Qed.

End ParseFacts.

(** ** HttpError *)


Lemma newHttpError_403 : newHttpError (Some 403) [] = inr (httpError 403 "Forbidden").
Proof. vm_compute. reflexivity. Qed.
Lemma newHttpError_404 : newHttpError (Some 404) [] = inr (httpError 404 "Not Found").
Proof. vm_compute. reflexivity. Qed.
Lemma newHttpError_500 :
  newHttpError (Some 500) [] = inr (httpError 500 "Internal Server Error").
Proof. vm_compute. reflexivity. Qed.

Lemma throwNewHttpError_run {A} (code : Z) (e : HttpError.t) (w : World) :
  newHttpError (Some code) [] = inr e ->
  @throwNewHttpError A code w = (Abrupt (ThrowHttp e), w).
Proof. intros H. unfold throwNewHttpError, bind. rewrite H. reflexivity. Qed.

(** ** The static-file resolver *)

Section ResolverFacts.
Variable cwd : string.
Variable fs : string -> option Entry.
Variable contentType : string -> HeaderValue.

#[local] Abbreviation getStaticFile := (getStaticFile cwd fs contentType).
#[local] Abbreviation urlToPath := (urlToPath cwd).

(** A dot name is refused before anything is read. *)
Lemma getStaticFile_dot (request : Request) (directory : option string) (w : World) :
  startsWith (Path.name (Path.parse (urlToPath directory (url request)))) "." = true ->
  getStaticFile request directory w = (Abrupt (ThrowHttp (httpError 403 "Forbidden")), w).
Proof.
  intros H. unfold getStaticFile, tryCatch, bind. rewrite H.
  rewrite (throwNewHttpError_run 403 _ w newHttpError_403). reflexivity.
Qed.

Section Read.
Variables (request : Request) (directory : option string) (w : World).
#[local] Abbreviation path := (urlToPath directory (url request)).
Hypothesis Hname : startsWith (Path.name (Path.parse path)) "." = false.

(** Any other name is read, and the outcome of the read decides. *)
Lemma getStaticFile_file (content : string) :
  fs path = Some (File content) ->
  getStaticFile request directory w =
    (Normal {| StaticFile.body := content;
               StaticFile.headers :=
                 [("Content-Type", contentType (Path.ext (Path.parse path)))];
               StaticFile.statusCode := 200 |},
     withRead path w).
Proof.
  intros Hfs. unfold getStaticFile, tryCatch, bind. rewrite Hname.
  unfold readFile. rewrite Hfs. reflexivity.
Qed.

Lemma getStaticFile_directory :
  fs path = Some Directory ->
  getStaticFile request directory w =
    (Normal {| StaticFile.body := "";
               StaticFile.headers := [("Location", HvString (url request +:+ "/"))];
               StaticFile.statusCode := 302 |},
     withRead path w).
Proof.
  intros Hfs. unfold getStaticFile, tryCatch, bind. rewrite Hname.
  unfold readFile. rewrite Hfs. reflexivity.
Qed.

Lemma getStaticFile_unreadable :
  fs path = Some Unreadable ->
  getStaticFile request directory w =
    (Abrupt (ThrowHttp (httpError 403 "Forbidden")), withRead path w).
Proof.
  intros Hfs. unfold getStaticFile, tryCatch, bind. rewrite Hname.
  unfold readFile. rewrite Hfs. simpl.
  apply throwNewHttpError_run, newHttpError_403.
Qed.

Lemma getStaticFile_missing :
  fs path = None ->
  getStaticFile request directory w =
    (Abrupt (ThrowHttp (httpError 404 "Not Found")), withRead path w).
Proof.
  intros Hfs. unfold getStaticFile, tryCatch, bind. rewrite Hname.
  unfold readFile. rewrite Hfs. simpl.
  apply throwNewHttpError_run, newHttpError_404.
Qed.

Lemma getStaticFile_faulty (errno : string) :
  fs path = Some (Faulty errno) ->
  errno <> "EACCES" -> errno <> "EISDIR" -> errno <> "ENOENT" ->
  getStaticFile request directory w =
    (Abrupt (ThrowHttp (httpError 500 "Internal Server Error")),
     withStderr (ThrowError (Some errno) "read failed") (withRead path w)).
Proof.
  intros Hfs H1 H2 H3. unfold getStaticFile, tryCatch, bind. rewrite Hname.
  unfold readFile. rewrite Hfs. simpl.
  rewrite !bool_decide_eq_false_2 by congruence.
  unfold consoleError, modifyWorld.
  apply throwNewHttpError_run, newHttpError_500.
Qed.

End Read.

End ResolverFacts.

(** ** The handler chain *)

Section ListenerFacts.

(** One turn of the loop. *)
Lemma runHandlers_cons (handler : Handler) (rest : list Handler)
    (request : Request) (w : World) :
  runHandlers (handler :: rest) request w =
    match handler request (modifyWorld (withNext true)) (withNext false w) with
    | (Normal _, w1) =>
        if negb (next w1) || Response.writableEnded (response w1)
        then (Normal tt, w1)
        else runHandlers rest request w1
    | (Abrupt error, w1) => (Abrupt error, w1)
    end.
Proof.
  simpl. unfold bind, modifyWorld, getsWorld.
  destruct (handler request _ (withNext false w)) as [[[]|error] w1]; [| reflexivity].
  destruct (negb (next w1) || Response.writableEnded (response w1)); reflexivity.
Qed.

(** The render step on a response without header block, and on any other. *)
Lemma renderError_open (e : HttpError.t) (w : World) (c : Z)
    (table : gmap string HeaderValue) :
  response w = Response.Open c table ->
  100 <= HttpError.statusCode e <= 999 ->
  renderError (ThrowHttp e) w =
    (Normal tt,
     withResponse
       (Response.Finished (HttpError.statusCode e) (plainText table)
          (default "" (HttpError.statusMessage e)))
       w).
Proof.
  intros Hw Hcode. unfold renderError, bind, responseWriteHead. rewrite Hw. simpl.
  destruct (HttpError.statusCode e <? 100) eqn:E1; [lia |].
  destruct (HttpError.statusCode e >? 999) eqn:E2; [lia |]. simpl.
  unfold responseEnd, modifyWorld. simpl. reflexivity.
Qed.

Lemma renderError_written (error : Thrown) (w : World) :
  (forall c table, response w <> Response.Open c table) ->
  renderError error w = (Abrupt Response.ERR_HTTP_HEADERS_SENT, w).
Proof.
  intros Hw. unfold renderError, bind, responseWriteHead.
  destruct (response w) as [c table|c table b|c table b] eqn:E.
  - now destruct (Hw c table).
  - reflexivity.
  - reflexivity.
Qed.

(** The listener, by the way the loop completes. *)
Lemma listener_ended (handlers : list Handler) (request : Request) (w w1 : World) :
  runHandlers handlers request w = (Normal tt, w1) ->
  Response.writableEnded (response w1) = true ->
  createRequestListener handlers request w =
    (Normal tt, withStdout (color (Response.statusCode (response w1)), url request) w1).
Proof.
  intros Hrun Hend. unfold createRequestListener, tryCatch, bind.
  rewrite Hrun. unfold getsWorld. rewrite Hend. reflexivity.
Qed.

Lemma listener_not_ended (handlers : list Handler) (request : Request) (w w1 : World) :
  runHandlers handlers request w = (Normal tt, w1) ->
  Response.writableEnded (response w1) = false ->
  createRequestListener handlers request w =
    renderError (ThrowHttp (httpError 404 "Not Found"))
      (withStdout (Red, 404, url request) w1).
Proof.
  intros Hrun Hend. unfold createRequestListener, tryCatch, bind.
  rewrite Hrun. unfold getsWorld. rewrite Hend.
  rewrite (throwNewHttpError_run 404 _ w1 newHttpError_404). reflexivity.
Qed.

Lemma listener_http_error (handlers : list Handler) (request : Request) (w w1 : World)
    (e : HttpError.t) :
  runHandlers handlers request w = (Abrupt (ThrowHttp e), w1) ->
  createRequestListener handlers request w =
    renderError (ThrowHttp e)
      (withStdout (color (HttpError.statusCode e), url request) w1).
Proof.
  intros Hrun. unfold createRequestListener, tryCatch, bind.
  rewrite Hrun. reflexivity.
Qed.

Lemma listener_other_error (handlers : list Handler) (request : Request) (w w1 : World)
    (code : option string) (message : string) :
  runHandlers handlers request w = (Abrupt (ThrowError code message), w1) ->
  createRequestListener handlers request w =
    renderError (ThrowHttp (httpError 500 "Internal Server Error"))
      (withStderr (ThrowError code message) w1).
Proof.
  intros Hrun. unfold createRequestListener, tryCatch, bind.
  rewrite Hrun. unfold consoleError, modifyWorld.
  rewrite (throwNewHttpError_run 500 _ _ newHttpError_500). reflexivity.
Qed.

(** Whatever the handlers do, the listener completes abruptly only when
    its render step does. *)
Lemma listener_abrupt_from_render (handlers : list Handler) (request : Request)
    (w w' : World) (thrown : Thrown) :
  createRequestListener handlers request w = (Abrupt thrown, w') ->
  exists error w0, renderError error w0 = (Abrupt thrown, w').
Proof.
  destruct (runHandlers handlers request w) as [[[]|[e|code message]] w1] eqn:Hrun.
  - destruct (Response.writableEnded (response w1)) eqn:Hend.
    + rewrite (listener_ended _ _ _ _ Hrun Hend). discriminate.
    + rewrite (listener_not_ended _ _ _ _ Hrun Hend). eauto.
  - rewrite (listener_http_error _ _ _ _ _ Hrun). eauto.
  - rewrite (listener_other_error _ _ _ _ _ _ Hrun). eauto.
Qed.

End ListenerFacts.

(** ** Containment *)

Section Containment.
Import Path.

Lemma staysBelow_snoc (segments : list string) (depth : nat) (seg : string) :
  staysBelow depth segments = true ->
  seg <> ".." ->
  staysBelow depth (segments ++ [seg]) = true.
Proof.
  revert depth. induction segments as [|s rest IH]; intros depth H Hseg; simpl in *.
  - destruct (_ || _); [reflexivity |].
    now rewrite bool_decide_eq_false_2 by assumption.
  - destruct (_ || _); [now apply IH |].
    destruct (bool_decide (s = "..")); [| now apply IH].
    destruct depth; [discriminate | now apply IH].
Qed.

(** A path resolved from [directory + "/" + rest] lies inside the resolved
    [directory] when the walk along [rest] never climbs above its start. *)
Lemma resolve_inside (cwd directory rest : string) :
  directory <> "" ->
  staysBelow 0 (split rest) = true ->
  isInside (resolve cwd directory) (resolve cwd (directory +:+ String "/" rest)) = true.
Proof.
  intros Hdir Hbelow. unfold isInside. apply bool_decide_eq_true_2.
  rewrite !segmentsOf_resolve. unfold normalizeSegments.
  rewrite foldl_fullPath_append by assumption.
  destruct (foldl_normalizeStep_below (split rest) []
              (foldl normalizeStep [] (split (fullPath cwd directory))) Hbelow)
    as [extra Hextra].
  simpl in Hextra. rewrite Hextra, reverse_app.
  now exists (reverse extra).
Qed.

Lemma urlToPath_inside (cwd : string) (directory : option string) (u : string) :
  directory <> Some "" ->
  startsWith u "/" = true ->
  staysBelow 0 (split u) = true ->
  isInside (resolve cwd (default "." directory)) (urlToPath cwd directory u) = true.
Proof.
  intros Hdir Hslash Hbelow.
  assert (Hd : default "." directory <> "").
  { destruct directory as [d|]; simpl; [congruence | discriminate]. }
  apply startsWith_slash_inv in Hslash as [rest ->].
  change (split (String "/" rest)) with ("" :: split rest) in Hbelow.
  change (staysBelow 0 ("" :: split rest)) with (staysBelow 0 (split rest)) in Hbelow.
  unfold urlToPath. destruct (endsWithSlash (String "/" rest)).
  - rewrite append_cons.
    change (rest +:+ "/index.html") with (rest +:+ String "/" "index.html").
    apply resolve_inside; [assumption |].
    rewrite split_append_slash. apply staysBelow_snoc; [assumption | discriminate].
  - now apply resolve_inside.
Qed.

End Containment.

Section ReadsFacts.
Variable cwd : string.
Variable fs : string -> option Entry.
Variable contentType : string -> HeaderValue.

Lemma newReads_same (w : World) : newReads w w = [].
Proof. unfold newReads. apply drop_all. Qed.

Lemma newReads_withRead (w : World) (p : string) : newReads w (withRead p w) = [p].
Proof. unfold newReads. simpl. now rewrite drop_app_length. Qed.

Lemma throwNewHttpError_world {A} (code : Z) (w : World) :
  (@throwNewHttpError A code w).2 = w.
Proof.
  unfold throwNewHttpError, bind, liftThrown.
  destruct (newHttpError (Some code) []); reflexivity.
Qed.

(** [getStaticFile] reads at most once, and then the candidate path. *)
Lemma getStaticFile_newReads (request : Request) (directory : option string) (w : World) :
  newReads w (getStaticFile cwd fs contentType request directory w).2
  = if startsWith (Path.name (Path.parse (urlToPath cwd directory (url request)))) "."
    then [] else [urlToPath cwd directory (url request)].
Proof.
  destruct (startsWith _ ".") eqn:Hname.
  - rewrite getStaticFile_dot by assumption. apply newReads_same.
  - unfold getStaticFile, tryCatch, bind. rewrite Hname. unfold readFile.
    destruct (fs _) as [[content| | |errno]|]; simpl;
      repeat match goal with
             | |- context [bool_decide ?P] => destruct (bool_decide P)
             end;
      unfold consoleError, modifyWorld, bind; simpl;
      rewrite ?throwNewHttpError_world; apply newReads_withRead.
Qed.

End ReadsFacts.

(** ** The server with the static handler alone *)

Section StaticAlone.
Variable cwd : string.
Variable fs : string -> option Entry.
Variable contentType : string -> HeaderValue.

(** What [getStaticFile] throws is an [HttpError] 403, 404 or 500, and it
  leaves the response alone. *)
Lemma getStaticFile_outcome (request : Request) (directory : option string) (w : World) :
response (getStaticFile cwd fs contentType request directory w).2 = response w
/\ match (getStaticFile cwd fs contentType request directory w).1 with
   | Normal file =>
       StaticFile.statusCode file = 200 \/ StaticFile.statusCode file = 302
   | Abrupt error =>
       error = ThrowHttp (httpError 403 "Forbidden")
       \/ error = ThrowHttp (httpError 404 "Not Found")
       \/ error = ThrowHttp (httpError 500 "Internal Server Error")
   end.
Proof.
destruct (startsWith (Path.name (Path.parse (urlToPath cwd directory (url request)))) ".")
  eqn:Hname.
- rewrite getStaticFile_dot by assumption. simpl. auto.
- destruct (fs (urlToPath cwd directory (url request))) as [[content| | |errno]|] eqn:Hfs.
  + rewrite (getStaticFile_file _ _ _ _ _ _ Hname _ Hfs). simpl. auto.
  + rewrite (getStaticFile_unreadable _ _ _ _ _ _ Hname Hfs). simpl. auto.
  + rewrite (getStaticFile_directory _ _ _ _ _ _ Hname Hfs). simpl. auto.
  + unfold getStaticFile, tryCatch, bind. rewrite Hname. unfold readFile. rewrite Hfs.
    simpl.
    repeat match goal with
           | |- context [bool_decide ?P] => destruct (bool_decide P)
           end;
      unfold consoleError, modifyWorld, bind;
      rewrite ?(throwNewHttpError_run 403 _ _ newHttpError_403),
              ?(throwNewHttpError_run 404 _ _ newHttpError_404),
              ?(throwNewHttpError_run 500 _ _ newHttpError_500);
      simpl; auto.
  + rewrite (getStaticFile_missing _ _ _ _ _ _ Hname Hfs). simpl. auto.
Qed.

(** One call of the static handler from a response without header block:
  it ends the response, or calls [next] and leaves the response as it
  was, or throws an [HttpError] 403 or 500 or a plain error and leaves
  the response as it was. *)
Lemma createStaticHandler_outcome (request : Request) (directory : option string)
  (w : World) (c : Z) (table : gmap string HeaderValue) :
response w = Response.Open c table ->
match createStaticHandler cwd fs contentType directory request
        (modifyWorld (withNext true)) w with
| (Normal _, w') =>
    Response.writableEnded (response w') = true \/ response w' = response w
| (Abrupt error, w') =>
    response w' = response w
    /\ (error = ThrowHttp (httpError 403 "Forbidden")
        \/ error = ThrowHttp (httpError 500 "Internal Server Error")
        \/ exists code message, error = ThrowError code message)
end.
Proof.
intros Hopen. unfold createStaticHandler, tryCatch, bind.
pose proof (getStaticFile_outcome request directory w) as [Hresp Hout].
destruct (getStaticFile cwd fs contentType request directory w) as [[file|error] w1].
- simpl in Hresp, Hout. unfold responseWriteHead. rewrite Hresp, Hopen.
  unfold Response.writeHead.
  destruct ((StaticFile.statusCode file <? 100) || (StaticFile.statusCode file >? 999)).
  { simpl. rewrite Hresp, Hopen. split; [reflexivity |]. right. right. eauto. }
  destruct (existsb _ _).
  { simpl. rewrite Hresp, Hopen. split; [reflexivity |]. right. right. eauto. }
  simpl. left. reflexivity.
- simpl in Hresp, Hout.
  destruct Hout as [-> | [-> | ->]]; simpl; rewrite ?Hresp; auto.
Qed.

(** X10.  With the static handler as the only handler, every request that
  arrives with an untouched response is answered: the listener completes
  normally and the response is ended. *)
Theorem static_listener_answers (request : Request) (directory : option string)
  (w : World) (c : Z) (table : gmap string HeaderValue) :
response w = Response.Open c table ->
exists w',
  createRequestListener [createStaticHandler cwd fs contentType directory] request w
  = (Normal tt, w')
  /\ Response.writableEnded (response w') = true.
Proof.
intros Hopen.
pose proof (createStaticHandler_outcome request directory (withNext false w) c table Hopen)
  as Hcall.
pose proof (runHandlers_cons (createStaticHandler cwd fs contentType directory) []
              request w) as Hrun.
destruct (createStaticHandler cwd fs contentType directory request
            (modifyWorld (withNext true)) (withNext false w)) as [[[]|error] w1].
- assert (Hloop : runHandlers [createStaticHandler cwd fs contentType directory] request w
                  = (Normal tt, w1)).
  { rewrite Hrun. destruct (negb (next w1) || _); reflexivity. }
  destruct Hcall as [Hend | Hsame].
  + eexists. split; [apply (listener_ended _ _ _ _ Hloop Hend) | exact Hend].
  + simpl in Hsame. rewrite Hopen in Hsame.
    rewrite (listener_not_ended _ _ _ _ Hloop) by (now rewrite Hsame).
    rewrite (renderError_open _ _ c table); [| exact Hsame | simpl; lia].
    eexists. split; reflexivity.
- destruct Hcall as [Hsame Herror]. simpl in Hsame. rewrite Hopen in Hsame.
  destruct Herror as [-> | [-> | (code & message & ->)]].
  + rewrite (listener_http_error _ _ _ _ _ Hrun).
    rewrite (renderError_open _ _ c table); [| exact Hsame | simpl; lia].
    eexists. split; reflexivity.
  + rewrite (listener_http_error _ _ _ _ _ Hrun).
    rewrite (renderError_open _ _ c table); [| exact Hsame | simpl; lia].
    eexists. split; reflexivity.
  + rewrite (listener_other_error _ _ _ _ _ _ Hrun).
    rewrite (renderError_open _ _ c table); [| exact Hsame | simpl; lia].
    eexists. split; reflexivity.
Qed.

End StaticAlone.

(** ** The models on concrete inputs *)

Example resolve_relative :
  Path.resolve "/home/app" "public/docs/../a//b/./c.txt" = "/home/app/public/a/b/c.txt".
Proof. vm_compute. reflexivity. Qed.

Example resolve_above_root : Path.resolve "/home/app" "/../../x/" = "/x".
Proof. vm_compute. reflexivity. Qed.

Example resolve_empty : Path.resolve "/home/app" "" = "/home/app".
Proof. vm_compute. reflexivity. Qed.

Example parse_dotfile :
  Path.parse "/a/b/.env" = {| Path.base := ".env"; Path.ext := ""; Path.name := ".env" |}.
Proof. vm_compute. reflexivity. Qed.

Example parse_two_dots :
  Path.parse "/a/b/x.tar.gz"
  = {| Path.base := "x.tar.gz"; Path.ext := ".gz"; Path.name := "x.tar" |}.
Proof. vm_compute. reflexivity. Qed.

Example parse_hidden_with_extension :
  Path.parse "/a/.bashrc.bak"
  = {| Path.base := ".bashrc.bak"; Path.ext := ".bak"; Path.name := ".bashrc" |}.
Proof. vm_compute. reflexivity. Qed.

Example parse_root : Path.parse "/" = {| Path.base := ""; Path.ext := ""; Path.name := "" |}.
Proof. vm_compute. reflexivity. Qed.

Example isInside_sibling :
  Path.isInside "/home/app/public" "/home/app/public/a" = true
  /\ Path.isInside "/home/app/public" "/home/app/publicity" = false.
Proof. vm_compute. split; reflexivity. Qed.

(** The index file of the served directory: 200 with its content type. *)
Example serves_index :
  createRequestListener [Scenario.staticHandler] (Scenario.get "/") initialWorld
  = (Normal tt,
     {| response :=
          Response.Finished 200 {[ "content-type" := HvString "text/html; charset=utf-8" ]}
            "<h1>hi</h1>";
        next := false;
        reads := ["/home/app/public/index.html"];
        stdout := [(Green, 200, "/")];
        stderr := [] |}).
Proof. vm_compute. reflexivity. Qed.

(** A directory without trailing slash: 302 to the URL with one. *)
Example redirects_directory :
  createRequestListener [Scenario.staticHandler] (Scenario.get "/docs") initialWorld
  = (Normal tt,
     {| response := Response.Finished 302 {[ "location" := HvString "/docs/" ]} "";
        next := false;
        reads := ["/home/app/public/docs"];
        stdout := [(Yellow, 302, "/docs")];
        stderr := [] |}).
Proof. vm_compute. reflexivity. Qed.

(** A dotfile that exists: 403, and nothing is read. *)
Example refuses_dotfile :
  createRequestListener [Scenario.staticHandler] (Scenario.get "/.env") initialWorld
  = (Normal tt,
     {| response :=
          Response.Finished 403 {[ "content-type" := HvString "text/plain" ]} "Forbidden";
        next := false;
        reads := [];
        stdout := [(Red, 403, "/.env")];
        stderr := [] |}).
Proof. vm_compute. reflexivity. Qed.

(** A missing file: the static handler calls [next], and the listener
    answers 404 "Not Found". *)
Example misses_file :
  createRequestListener [Scenario.staticHandler] (Scenario.get "/missing.txt") initialWorld
  = (Normal tt,
     {| response :=
          Response.Finished 404 {[ "content-type" := HvString "text/plain" ]} "Not Found";
        next := true;
        reads := ["/home/app/public/missing.txt"];
        stdout := [(Red, 404, "/missing.txt")];
        stderr := [] |}).
Proof. vm_compute. reflexivity. Qed.

(** ** Claims about the static-file resolver *)

(** C1, as stated, fails: with [public/] as the directory, the URL
    [/../secret.txt] resolves to [secret.txt] beside [public/], which is
    read and returned with status 200. *)
Lemma dot_dot_url_escapes_root :
  Path.resolve Scenario.cwd "public" = "/home/app/public"
  /\ getStaticFile Scenario.cwd Scenario.fs Scenario.contentType
       (Scenario.get "/../secret.txt") (Some "public") initialWorld
     = (Normal {| StaticFile.body := "hunter2";
                  StaticFile.headers := [("Content-Type", HvString "text/plain; charset=utf-8")];
                  StaticFile.statusCode := 200 |},
        withRead "/home/app/secret.txt" initialWorld)
  /\ Path.isInside "/home/app/public" "/home/app/secret.txt" = false.
Proof. repeat split; vm_compute; reflexivity. Qed.

(** C1, amended.  For a URL that begins with a slash and whose segments,
    walked from the directory, never climb above it (no [..] beyond the
    depth reached so far), every path [getStaticFile] reads lies inside the
    resolved directory. *)
Theorem reads_stay_inside_root (cwd : string) (fs : string -> option Entry)
    (contentType : string -> HeaderValue) (request : Request)
    (directory : option string) (w : World) :
  directory <> Some "" ->
  startsWith (url request) "/" = true ->
  Path.staysBelow 0 (split (url request)) = true ->
  Forall (fun p => Path.isInside (Path.resolve cwd (default "." directory)) p = true)
    (newReads w (getStaticFile cwd fs contentType request directory w).2).
Proof.
  intros Hdir Hslash Hbelow. rewrite getStaticFile_newReads.
  destruct (startsWith _ "."); constructor; [| constructor].
  now apply urlToPath_inside.
Qed.

Lemma reads_stay_inside_root_witness :
  Forall (fun p => Path.isInside (Path.resolve Scenario.cwd (default "." (Some "public"))) p = true)
    (newReads initialWorld
       (getStaticFile Scenario.cwd Scenario.fs Scenario.contentType
          (Scenario.get "/docs/../.git/config") (Some "public") initialWorld).2).
Proof.
  apply (reads_stay_inside_root Scenario.cwd Scenario.fs Scenario.contentType
           (Scenario.get "/docs/../.git/config") (Some "public") initialWorld);
    [discriminate | reflexivity | reflexivity].
Defined.

(** C6.  When the base name of the candidate path starts with a dot,
    [getStaticFile] throws [HttpError(403)] and leaves the world as it was:
    nothing is read, whatever the file system holds at that path. *)
Theorem dotfile_is_forbidden (cwd : string) (fs : string -> option Entry)
    (contentType : string -> HeaderValue) (request : Request)
    (directory : option string) (w : World) :
  startsWith (Path.base (Path.parse (urlToPath cwd directory (url request)))) "." = true ->
  getStaticFile cwd fs contentType request directory w
  = (Abrupt (ThrowHttp (httpError 403 "Forbidden")), w).
Proof.
  intros Hbase. apply getStaticFile_dot. now rewrite parse_name_dot.
Qed.

Lemma dotfile_is_forbidden_witness :
  getStaticFile Scenario.cwd Scenario.fs Scenario.contentType
    (Scenario.get "/.env") (Some "public") initialWorld
  = (Abrupt (ThrowHttp (httpError 403 "Forbidden")), initialWorld).
Proof.
  apply (dotfile_is_forbidden Scenario.cwd Scenario.fs Scenario.contentType
           (Scenario.get "/.env") (Some "public") initialWorld).
  reflexivity.
Defined.

(** C7, as stated, fails: [/.git] maps to an existing directory and does not
    end in a slash, and the answer is [HttpError(403)], not a redirect. *)
Lemma dot_directory_is_not_redirected :
  endsWithSlash "/.git" = false
  /\ Scenario.fs (urlToPath Scenario.cwd (Some "public") "/.git") = Some Directory
  /\ getStaticFile Scenario.cwd Scenario.fs Scenario.contentType
       (Scenario.get "/.git") (Some "public") initialWorld
     = (Abrupt (ThrowHttp (httpError 403 "Forbidden")), initialWorld).
Proof. repeat split; vm_compute; reflexivity. Qed.

(** C7, amended.  For a URL that does not end in a slash, whose candidate
    path is an existing directory with a base name that does not start with
    a dot, [getStaticFile] returns status 302, an empty body and the header
    [Location] with the request URL followed by a slash. *)
Theorem directory_is_redirected (cwd : string) (fs : string -> option Entry)
    (contentType : string -> HeaderValue) (request : Request)
    (directory : option string) (w : World) :
  endsWithSlash (url request) = false ->
  fs (urlToPath cwd directory (url request)) = Some Directory ->
  startsWith (Path.base (Path.parse (urlToPath cwd directory (url request)))) "." = false ->
  getStaticFile cwd fs contentType request directory w
  = (Normal {| StaticFile.body := "";
               StaticFile.headers := [("Location", HvString (url request +:+ "/"))];
               StaticFile.statusCode := 302 |},
     withRead (urlToPath cwd directory (url request)) w).
Proof.
  intros _ Hdir Hbase. apply getStaticFile_directory; [| exact Hdir].
  now rewrite parse_name_dot.
Qed.

Lemma directory_is_redirected_witness :
  getStaticFile Scenario.cwd Scenario.fs Scenario.contentType
    (Scenario.get "/docs") (Some "public") initialWorld
  = (Normal {| StaticFile.body := "";
               StaticFile.headers := [("Location", HvString "/docs/")];
               StaticFile.statusCode := 302 |},
     withRead "/home/app/public/docs" initialWorld).
Proof.
  apply (directory_is_redirected Scenario.cwd Scenario.fs Scenario.contentType
           (Scenario.get "/docs") (Some "public") initialWorld); reflexivity.
Defined.

(** C8.  [new HttpError(code)] throws for every code below 400 and every
    code above 599; for every code from 400 to 599 it yields an instance
    whose [statusCode] is the code and whose [statusMessage] is the entry of
    [STATUS_CODES] for it. *)
Theorem HttpError_accepts_400_to_599 (code : Z) (args : list string) :
  (code < 400 \/ code > 599 ->
   exists message, newHttpError (Some code) args = inl (ThrowError None message))
  /\ (400 <= code <= 599 ->
      exists e, newHttpError (Some code) args = inr e
                /\ HttpError.statusCode e = code
                /\ HttpError.statusMessage e = STATUS_CODES !! code).
Proof.
  unfold newHttpError. change (default 400 (Some code)) with code. split.
  - intros H.
    destruct (code <? 400) eqn:E1; [cbn [orb]; eauto |].
    destruct (code >? 599) eqn:E2; [cbn [orb]; eauto | lia].
  - intros H.
    destruct (code <? 400) eqn:E1; [lia |].
    destruct (code >? 599) eqn:E2; [lia |]. cbn [orb].
    eexists. split; [reflexivity |]. split; reflexivity.
Qed.

Lemma HttpError_accepts_400_to_599_witness :
  (exists message, newHttpError (Some 302) [] = inl (ThrowError None message))
  /\ (exists e, newHttpError (Some 404) [] = inr e
                /\ HttpError.statusCode e = 404
                /\ HttpError.statusMessage e = STATUS_CODES !! 404).
Proof.
  split.
  - apply (proj1 (HttpError_accepts_400_to_599 302 [])). lia.
  - apply (proj2 (HttpError_accepts_400_to_599 404 [])). lia.
Defined.

Section CandidatePath.
Variable cwd : string.

(** The candidate path of a URL that ends in an ordinary segment has that
    segment as its base. *)
Lemma urlToPath_base_segment (directory : option string) (pre seg : string) :
  slashFree seg = true -> seg <> "" -> startsWith seg "." = false ->
  Path.base (Path.parse (urlToPath cwd directory (pre +:+ "/" +:+ seg))) = seg.
Proof.
  intros Hfree Hne Hdot.
  destruct (not_dot_segment seg Hne Hdot) as [H1 H2].
  change ("/" +:+ seg) with (String "/" seg).
  unfold urlToPath. rewrite endsWithSlash_append_piece by assumption.
  rewrite <- append_assoc. now apply base_resolve_append.
Qed.

(** The candidate path of a URL that ends in a slash has [index.html] as
    its base, whatever the segments before are. *)
Lemma urlToPath_base_index (directory : option string) (u : string) :
  endsWithSlash u = true ->
  Path.base (Path.parse (urlToPath cwd directory u)) = "index.html".
Proof.
  intros Hslash. unfold urlToPath. rewrite Hslash.
  change (u +:+ "/index.html") with (u +:+ String "/" "index.html").
  rewrite <- append_assoc. now apply base_resolve_append.
Qed.

Lemma parse_index (p : string) :
  Path.base (Path.parse p) = "index.html" ->
  Path.parse p = {| Path.base := "index.html"; Path.ext := ".html"; Path.name := "index" |}.
Proof.
  rewrite parse_base. intros H. unfold Path.parse. rewrite H. reflexivity.
Qed.

End CandidatePath.

(** C9, as stated, fails: [blob.zzz] is read, its extension is unknown to
    the MIME table, and the 200 result still has a [Content-Type] entry,
    holding the [false] the table returned; the static handler passes it on
    to [writeHead], so the response carries that header. *)
Lemma unknown_extension_keeps_content_type :
  Scenario.contentType ".zzz" = HvFalse
  /\ getStaticFile Scenario.cwd Scenario.fs Scenario.contentType
       (Scenario.get "/blob.zzz") (Some "public") initialWorld
     = (Normal {| StaticFile.body := "blob";
                  StaticFile.headers := [("Content-Type", HvFalse)];
                  StaticFile.statusCode := 200 |},
        withRead "/home/app/public/blob.zzz" initialWorld)
  /\ response
       (createRequestListener [Scenario.staticHandler] (Scenario.get "/blob.zzz")
          initialWorld).2
     = Response.Finished 200 {[ "content-type" := HvFalse ]} "blob".
Proof. repeat split; vm_compute; reflexivity. Qed.

(** C9, amended.  For every successfully read file, [getStaticFile] returns
    status 200 and the file's bytes, and the headers always have one
    [Content-Type] entry, whose value is whatever the MIME table returned
    for the extension: for an unknown extension that is the table's own
    "not found" value, and never an error. *)
Theorem unknown_extension_is_served (cwd : string) (fs : string -> option Entry)
    (contentType : string -> HeaderValue) (request : Request)
    (directory : option string) (w : World) (content : string) (v : HeaderValue) :
  startsWith (Path.base (Path.parse (urlToPath cwd directory (url request)))) "." = false ->
  fs (urlToPath cwd directory (url request)) = Some (File content) ->
  contentType (Path.ext (Path.parse (urlToPath cwd directory (url request)))) = v ->
  getStaticFile cwd fs contentType request directory w
  = (Normal {| StaticFile.body := content;
               StaticFile.headers := [("Content-Type", v)];
               StaticFile.statusCode := 200 |},
     withRead (urlToPath cwd directory (url request)) w).
Proof.
  intros Hbase Hfile <-. apply getStaticFile_file; [| exact Hfile].
  now rewrite parse_name_dot.
Qed.

Lemma unknown_extension_is_served_witness :
  getStaticFile Scenario.cwd Scenario.fs Scenario.contentType
    (Scenario.get "/blob.zzz") (Some "public") initialWorld
  = (Normal {| StaticFile.body := "blob";
               StaticFile.headers := [("Content-Type", HvFalse)];
               StaticFile.statusCode := 200 |},
     withRead "/home/app/public/blob.zzz" initialWorld).
Proof.
  apply (unknown_extension_is_served Scenario.cwd Scenario.fs Scenario.contentType
           (Scenario.get "/blob.zzz") (Some "public") initialWorld "blob" HvFalse);
    reflexivity.
Defined.

(** C10.  The dot check looks at the base of the candidate path only.
    (1) A URL whose last segment is not empty and does not begin with a dot
    is read and, when the read succeeds, served with status 200, whatever
    the segments before it are (so [/.git/config] is served).
    (2) For a URL that ends in a slash the base is [index.html], which
    passes the check: the index file of the directory, dot-named or not, is
    read and served. *)
Theorem dot_check_sees_only_base (cwd : string) (fs : string -> option Entry)
    (contentType : string -> HeaderValue) (directory : option string) (w : World) :
  (forall (pre seg verb content : string),
     slashFree seg = true -> seg <> "" -> startsWith seg "." = false ->
     fs (urlToPath cwd directory (pre +:+ "/" +:+ seg)) = Some (File content) ->
     getStaticFile cwd fs contentType {| url := pre +:+ "/" +:+ seg; method := verb |}
       directory w
     = (Normal {| StaticFile.body := content;
                  StaticFile.headers :=
                    [("Content-Type",
                      contentType
                        (Path.ext (Path.parse (urlToPath cwd directory (pre +:+ "/" +:+ seg)))))];
                  StaticFile.statusCode := 200 |},
        withRead (urlToPath cwd directory (pre +:+ "/" +:+ seg)) w))
  /\ (forall (u verb content : string),
        endsWithSlash u = true ->
        Path.base (Path.parse (urlToPath cwd directory u)) = "index.html"
        /\ (fs (urlToPath cwd directory u) = Some (File content) ->
            getStaticFile cwd fs contentType {| url := u; method := verb |} directory w
            = (Normal {| StaticFile.body := content;
                         StaticFile.headers := [("Content-Type", contentType ".html")];
                         StaticFile.statusCode := 200 |},
               withRead (urlToPath cwd directory u) w))).
Proof.
  split.
  - intros pre seg verb content Hfree Hne Hdot Hfile.
    apply getStaticFile_file; [| exact Hfile]. cbn [url].
    now rewrite parse_name_dot, urlToPath_base_segment.
  - intros u verb content Hslash.
    pose proof (urlToPath_base_index cwd directory u Hslash) as Hbase.
    split; [exact Hbase |]. intros Hfile.
    rewrite (getStaticFile_file cwd fs contentType _ directory w) with (content := content).
    + cbn [url]. now rewrite (parse_index _ Hbase).
    + cbn [url]. now rewrite parse_name_dot, Hbase.
    + exact Hfile.
Qed.

Lemma dot_check_sees_only_base_witness :
  getStaticFile Scenario.cwd Scenario.fs Scenario.contentType
    (Scenario.get "/.git/config") (Some "public") initialWorld
  = (Normal {| StaticFile.body := "[core]";
               StaticFile.headers := [("Content-Type", HvFalse)];
               StaticFile.statusCode := 200 |},
     withRead "/home/app/public/.git/config" initialWorld)
  /\ getStaticFile Scenario.cwd Scenario.fs Scenario.contentType
       (Scenario.get "/.git/") (Some "public") initialWorld
     = (Normal {| StaticFile.body := "<h1>git</h1>";
                  StaticFile.headers := [("Content-Type", HvString "text/html; charset=utf-8")];
                  StaticFile.statusCode := 200 |},
        withRead "/home/app/public/.git/index.html" initialWorld).
Proof.
  split.
  - apply (proj1 (dot_check_sees_only_base Scenario.cwd Scenario.fs Scenario.contentType
                    (Some "public") initialWorld) "/.git" "config" "GET" "[core]");
      reflexivity || discriminate.
  - apply (proj2 (dot_check_sees_only_base Scenario.cwd Scenario.fs Scenario.contentType
                    (Some "public") initialWorld) "/.git/" "GET" "<h1>git</h1>");
      reflexivity.
Defined.

(** ** Claims about the handler chain *)

(** C2, at the input where it fails.  A handler answers the request and then
    throws: the listener logs the error, takes the 500 branch, and its render
    step calls [writeHead] on a response whose header block is already
    written.  That call throws, and nothing catches it: the listener itself
    completes abruptly with [ERR_HTTP_HEADERS_SENT]. *)
Theorem render_failure_escapes_listener :
  createRequestListener [Scenario.respondThenThrow] (Scenario.get "/") initialWorld
  = (Abrupt Response.ERR_HTTP_HEADERS_SENT,
     {| response :=
          Response.Finished 200 {[ "content-type" := HvString "text/plain" ]}
            "Hello, world!";
        next := false;
        reads := [];
        stdout := [];
        stderr := [ThrowError None "audit log unavailable"] |}).
Proof. vm_compute. reflexivity. Qed.

(** C3.  On handlers [A; B; ...] where the call of [A] ends with [next]
    called and the response not ended, and the call of [B] ends with the
    response ended, the listener completes normally in the world [B] left,
    with one more log line: the response is the one [B] wrote, and whatever
    follows [B] in the list has no part in the outcome. *)
Theorem second_handler_answers (A B : Handler) (rest : list Handler)
    (request : Request) (w wA wB : World) :
  A request (modifyWorld (withNext true)) (withNext false w) = (Normal tt, wA) ->
  next wA = true ->
  Response.writableEnded (response wA) = false ->
  B request (modifyWorld (withNext true)) (withNext false wA) = (Normal tt, wB) ->
  Response.writableEnded (response wB) = true ->
  createRequestListener (A :: B :: rest) request w
  = (Normal tt, withStdout (color (Response.statusCode (response wB)), url request) wB).
Proof.
  intros HA HnextA HendA HB HendB.
  apply listener_ended; [| exact HendB].
  rewrite runHandlers_cons, HA, HnextA, HendA. cbn [negb orb].
  rewrite runHandlers_cons, HB, HendB.
  now rewrite orb_true_r.
Qed.

Lemma second_handler_answers_witness :
  createRequestListener [Scenario.passOn; Scenario.hello; Scenario.explode]
    (Scenario.get "/hello-world") initialWorld
  = (Normal tt,
     {| response :=
          Response.Finished 200 {[ "content-type" := HvString "text/plain" ]}
            "Hello, world!";
        next := false;
        reads := [];
        stdout := [(Green, 200, "/hello-world")];
        stderr := [] |}).
Proof.
  apply (second_handler_answers Scenario.passOn Scenario.hello [Scenario.explode]
           (Scenario.get "/hello-world") initialWorld
           (withNext true (withNext false initialWorld))
           {| response :=
                Response.Finished 200 {[ "content-type" := HvString "text/plain" ]}
                  "Hello, world!";
              next := false; reads := []; stdout := []; stderr := [] |});
    vm_compute; reflexivity.
Defined.

(** C4, as stated, fails: the only handler writes the start of the page and
    calls [next].  The handlers are exhausted, every one called [next], and
    the response is not ended; but its header block is written, so the
    render step cannot write a 404: the response keeps status 200 and the
    body the handler wrote. *)
Lemma written_response_gets_no_404 :
  runHandlers [Scenario.preamble] (Scenario.get "/page") initialWorld
  = (Normal tt,
     {| response :=
          Response.HeadWritten 200 {[ "content-type" := HvString "text/html" ]}
            "<!doctype html>";
        next := true; reads := []; stdout := []; stderr := [] |})
  /\ Response.writableEnded
       (Response.HeadWritten 200 {[ "content-type" := HvString "text/html" ]}
          "<!doctype html>") = false
  /\ response
       (createRequestListener [Scenario.preamble] (Scenario.get "/page") initialWorld).2
     = Response.HeadWritten 200 {[ "content-type" := HvString "text/html" ]}
         "<!doctype html>".
Proof. repeat split; vm_compute; reflexivity. Qed.

(** C4, amended.  When the loop completes with a response that has no
    header block yet (so it is not ended either), the listener logs 404 and
    renders it: status 404, content type text/plain, body "Not Found". *)
Theorem unanswered_request_gets_404 (handlers : list Handler) (request : Request)
    (w w1 : World) (c : Z) (table : gmap string HeaderValue) :
  runHandlers handlers request w = (Normal tt, w1) ->
  response w1 = Response.Open c table ->
  createRequestListener handlers request w
  = (Normal tt,
     withResponse (Response.Finished 404 (plainText table) "Not Found")
       (withStdout (Red, 404, url request) w1)).
Proof.
  intros Hrun Hopen.
  rewrite (listener_not_ended _ _ _ _ Hrun) by (now rewrite Hopen).
  rewrite (renderError_open _ _ c table); [reflexivity | exact Hopen | simpl; lia].
Qed.

Lemma unanswered_request_gets_404_witness :
  createRequestListener [Scenario.idle] (Scenario.get "/missing") initialWorld
  = (Normal tt,
     withResponse (Response.Finished 404 (plainText ∅) "Not Found")
       (withStdout (Red, 404, "/missing") initialWorld)).
Proof.
  apply (unanswered_request_gets_404 [Scenario.idle] (Scenario.get "/missing")
           initialWorld initialWorld 200 ∅); reflexivity.
Defined.

(** C5, as stated, fails: a handler writes the header block and a chunk and
    then throws a plain error.  The listener substitutes [HttpError(500)],
    but the render step cannot write it: the response keeps status 200 and
    the body "partial". *)
Lemma late_throw_gets_no_500 :
  runHandlers [Scenario.partialThenThrow] (Scenario.get "/report") initialWorld
  = (Abrupt (ThrowError None "disk full"),
     {| response :=
          Response.HeadWritten 200 {[ "content-type" := HvString "text/plain" ]} "partial";
        next := false; reads := []; stdout := []; stderr := [] |})
  /\ response
       (createRequestListener [Scenario.partialThenThrow] (Scenario.get "/report")
          initialWorld).2
     = Response.HeadWritten 200 {[ "content-type" := HvString "text/plain" ]} "partial".
Proof. split; vm_compute; reflexivity. Qed.

(** C5, amended.  When the loop is left by a thrown value that is not an
    [HttpError]: if the response has no header block yet, the listener logs
    the value to stderr, substitutes [HttpError(500)] and renders status 500,
    content type text/plain, body "Internal Server Error", whatever the
    value was; and in every case the listener adds to the body nothing but,
    at most, that reason phrase. *)
Theorem unexpected_error_renders_500 (handlers : list Handler) (request : Request)
    (w w1 : World) (code : option string) (message : string) :
  runHandlers handlers request w = (Abrupt (ThrowError code message), w1) ->
  (forall c table, response w1 = Response.Open c table ->
     createRequestListener handlers request w
     = (Normal tt,
        withResponse (Response.Finished 500 (plainText table) "Internal Server Error")
          (withStderr (ThrowError code message) w1)))
  /\ (let body2 :=
        Response.body (response (createRequestListener handlers request w).2) in
      body2 = Response.body (response w1)
      \/ body2 = Response.body (response w1) +:+ "Internal Server Error").
Proof.
  intros Hrun. rewrite (listener_other_error _ _ _ _ _ _ Hrun).
  split.
  - intros c table Hopen.
    rewrite (renderError_open _ _ c table); [reflexivity | exact Hopen | simpl; lia].
  - destruct (response w1) as [c table|c table b|c table b] eqn:E.
    + right. rewrite (renderError_open _ _ c table); [reflexivity | exact E | simpl; lia].
    + left. rewrite renderError_written; simpl; [now rewrite E | congruence].
    + left. rewrite renderError_written; simpl; [now rewrite E | congruence].
Qed.

Lemma unexpected_error_renders_500_witness :
  (forall c table, response initialWorld = Response.Open c table ->
     createRequestListener [Scenario.explode] (Scenario.get "/") initialWorld
     = (Normal tt,
        withResponse (Response.Finished 500 (plainText table) "Internal Server Error")
          (withStderr (ThrowError None "connect ECONNREFUSED db.internal:5432")
             initialWorld)))
  /\ (let body2 :=
        Response.body
          (response
             (createRequestListener [Scenario.explode] (Scenario.get "/") initialWorld).2) in
      body2 = Response.body (response initialWorld)
      \/ body2 = Response.body (response initialWorld) +:+ "Internal Server Error").
Proof.
  apply (unexpected_error_renders_500 [Scenario.explode] (Scenario.get "/")
           initialWorld initialWorld None "connect ECONNREFUSED db.internal:5432").
  reflexivity.
Defined.

(** ** More on the static-file resolver *)

Section CanonicalPaths.
Import Path.

Lemma normalizeStep_ordinary (stack : list string) (s : string) :
slashFree s = true -> Forall ordinarySegment stack ->
Forall ordinarySegment (normalizeStep stack s).
Proof.
intros Hs Hst. unfold normalizeStep.
destruct (bool_decide (s = "")) eqn:E1; [assumption |].
destruct (bool_decide (s = ".")) eqn:E2; [assumption |]. simpl.
destruct (bool_decide (s = "..")) eqn:E3.
- destruct stack; [constructor | now inversion Hst].
- apply bool_decide_eq_false in E1, E2, E3.
  constructor; [| assumption]. repeat split; assumption.
Qed.

Lemma foldl_normalizeStep_ordinary (segments stack : list string) :
Forall (fun x => slashFree x = true) segments -> Forall ordinarySegment stack ->
Forall ordinarySegment (foldl normalizeStep stack segments).
Proof.
revert stack. induction segments as [|s rest IH]; intros stack Hs Hst; [assumption |].
inversion Hs; subst. simpl. apply IH; [assumption |].
now apply normalizeStep_ordinary.
Qed.

Lemma normalizeSegments_ordinary (s : string) :
Forall ordinarySegment (normalizeSegments (split s)).
Proof.
unfold normalizeSegments. apply Forall_reverse.
apply foldl_normalizeStep_ordinary; [apply split_slashFree | constructor].
Qed.

(** Ordinary segments are all pushed. *)
Lemma foldl_normalizeStep_push (segments stack : list string) :
Forall ordinarySegment segments ->
foldl normalizeStep stack segments = reverse segments ++ stack.
Proof.
revert stack. induction segments as [|s rest IH]; intros stack Hs; [reflexivity |].
inversion Hs as [|? ? [[_ H1] [H2 H3]] Hrest]; subst. simpl.
rewrite normalizeStep_push by assumption.
rewrite IH by assumption. rewrite reverse_cons, <- app_assoc. reflexivity.
Qed.

(** An absolute path written from ordinary segments resolves to itself. *)
Lemma resolve_canonical (cwd : string) (l : list string) :
Forall ordinarySegment l ->
resolve cwd ("/" +:+ join l) = "/" +:+ join l.
Proof.
intros Hl. unfold resolve. f_equal. f_equal.
change (fullPath cwd ("/" +:+ join l)) with (String "/" (join l)).
change (split (String "/" (join l))) with ("" :: split (join l)).
unfold normalizeSegments.
change (foldl normalizeStep [] ("" :: split (join l)))
  with (foldl normalizeStep [] (split (join l))).
destruct l as [|x l'] eqn:El; [reflexivity |]. rewrite <- El in *.
rewrite split_join.
- rewrite foldl_normalizeStep_push by assumption.
  now rewrite app_nil_r, reverse_involutive.
- subst; discriminate.
- eapply Forall_impl; [exact Hl | intros ? [[? _] _]; assumption].
Qed.

End CanonicalPaths.

Section ResolverExtras.
Variable cwd : string.
Variable fs : string -> option Entry.
Variable contentType : string -> HeaderValue.

Lemma endsWithSlash_inv (u : string) :
endsWithSlash u = true -> exists u', u = u' +:+ "/".
Proof.
induction u as [|c u IH]; [discriminate |].
destruct u as [|d u'].
- simpl. intros H. apply Ascii.eqb_eq in H. subst. now exists "".
- rewrite endsWithSlash_cons by discriminate. intros H.
  destruct (IH H) as [u'' Hu]. exists (String c u''). rewrite append_cons. now f_equal.
Qed.

Lemma append_slash_assoc (a b : string) : (a +:+ "/") +:+ b = a +:+ String "/" b.
Proof. now rewrite append_assoc. Qed.

(** A doubled slash resolves like a single one. *)
Lemma resolve_double_slash (x rest : string) :
Path.resolve cwd (x +:+ String "/" (String "/" rest))
= Path.resolve cwd (x +:+ String "/" rest).
Proof.
unfold Path.resolve, Path.normalizeSegments. do 3 f_equal.
destruct (decide (x = "")) as [-> | Hx].
- reflexivity.
- rewrite !fullPath_append, !split_append_slash, !foldl_app by assumption.
  reflexivity.
Qed.

(** X1.  The URL of a directory and the URL of its index file name the same
  candidate path, and when a file is there, [getStaticFile] returns the
  same result for both. *)
Theorem directory_url_is_its_index_url (directory : option string) (u : string) :
endsWithSlash u = true ->
urlToPath cwd directory u = urlToPath cwd directory (u +:+ "index.html")
/\ (forall verb content w,
      fs (urlToPath cwd directory u) = Some (File content) ->
      getStaticFile cwd fs contentType {| url := u; method := verb |} directory w
      = getStaticFile cwd fs contentType
          {| url := u +:+ "index.html"; method := verb |} directory w).
Proof.
intros Hslash.
assert (Hpath : urlToPath cwd directory u = urlToPath cwd directory (u +:+ "index.html")).
{ destruct (endsWithSlash_inv u Hslash) as [u' ->].
  unfold urlToPath. rewrite Hslash.
  rewrite (append_slash_assoc u' "index.html").
  rewrite endsWithSlash_append_piece by (reflexivity || discriminate).
  rewrite (append_slash_assoc u' "/index.html").
  change ("/index.html") with (String "/" "index.html").
  rewrite <- !append_assoc. apply resolve_double_slash. }
split; [exact Hpath |].
intros verb content w Hfile.
pose proof (urlToPath_base_index cwd directory u Hslash) as Hbase.
assert (Hname : startsWith (Path.name (Path.parse (urlToPath cwd directory u))) "." = false)
  by now rewrite parse_name_dot, Hbase.
rewrite (getStaticFile_file cwd fs contentType {| url := u; method := verb |}
           directory w Hname content Hfile).
rewrite Hpath in Hname, Hfile.
rewrite (getStaticFile_file cwd fs contentType
           {| url := u +:+ "index.html"; method := verb |} directory w Hname content Hfile).
cbn [url]. now rewrite Hpath.
Qed.

(** X2.  The candidate path is canonical: written from segments that are
  not empty, [.] or [..], and resolving it again, from any working
  directory, gives it back. *)
Theorem candidate_path_is_canonical (cwd' : string) (directory : option string) (u : string) :
Forall ordinarySegment (Path.segmentsOf (urlToPath cwd directory u))
/\ Path.resolve cwd' (urlToPath cwd directory u) = urlToPath cwd directory u.
Proof.
unfold urlToPath. split.
- rewrite segmentsOf_resolve. apply normalizeSegments_ordinary.
- unfold Path.resolve at 2 3. apply resolve_canonical, normalizeSegments_ordinary.
Qed.

(** X3.  [getStaticFile] completes in one of five ways only: a 200 with one
  [Content-Type] entry, a 302 with an empty body and the [Location] of
  the URL followed by a slash, or an [HttpError] 403, 404 or 500 with its
  reason phrase.  No system error leaves it. *)
Theorem resolver_completions (request : Request) (directory : option string) (w : World) :
match (getStaticFile cwd fs contentType request directory w).1 with
| Normal file =>
    (StaticFile.statusCode file = 200
     /\ exists v, StaticFile.headers file = [("Content-Type", v)])
    \/ file = {| StaticFile.body := "";
                 StaticFile.headers := [("Location", HvString (url request +:+ "/"))];
                 StaticFile.statusCode := 302 |}
| Abrupt error =>
    error = ThrowHttp (httpError 403 "Forbidden")
    \/ error = ThrowHttp (httpError 404 "Not Found")
    \/ error = ThrowHttp (httpError 500 "Internal Server Error")
end.
Proof.
destruct (startsWith (Path.name (Path.parse (urlToPath cwd directory (url request)))) ".")
  eqn:Hname.
- rewrite getStaticFile_dot by assumption. simpl. auto.
- destruct (fs (urlToPath cwd directory (url request))) as [[content| | |errno]|] eqn:Hfs.
  + rewrite (getStaticFile_file _ _ _ _ _ _ Hname _ Hfs). simpl. eauto.
  + rewrite (getStaticFile_unreadable _ _ _ _ _ _ Hname Hfs). simpl. auto.
  + rewrite (getStaticFile_directory _ _ _ _ _ _ Hname Hfs). simpl. auto.
  + unfold getStaticFile, tryCatch, bind. rewrite Hname. unfold readFile. rewrite Hfs.
    simpl.
    repeat match goal with
           | |- context [bool_decide ?P] => destruct (bool_decide P)
           end;
      unfold consoleError, modifyWorld, bind;
      rewrite ?(throwNewHttpError_run 403 _ _ newHttpError_403),
              ?(throwNewHttpError_run 404 _ _ newHttpError_404),
              ?(throwNewHttpError_run 500 _ _ newHttpError_500);
      simpl; auto.
  + rewrite (getStaticFile_missing _ _ _ _ _ _ Hname Hfs). simpl. auto.
Qed.

(** X4.  How a failed read is answered, for a base name that passes the dot
  check: a missing file is a 404, an unreadable one a 403, and any other
  failure (its errno is not EACCES, EISDIR or ENOENT) is a 500 whose cause
  goes to stderr and nowhere else.  The read is made once in each case. *)
Theorem read_failures_are_mapped (request : Request) (directory : option string) (w : World) :
startsWith (Path.base (Path.parse (urlToPath cwd directory (url request)))) "." = false ->
(fs (urlToPath cwd directory (url request)) = None ->
 getStaticFile cwd fs contentType request directory w
 = (Abrupt (ThrowHttp (httpError 404 "Not Found")),
    withRead (urlToPath cwd directory (url request)) w))
/\ (fs (urlToPath cwd directory (url request)) = Some Unreadable ->
    getStaticFile cwd fs contentType request directory w
    = (Abrupt (ThrowHttp (httpError 403 "Forbidden")),
       withRead (urlToPath cwd directory (url request)) w))
/\ (forall errno,
      fs (urlToPath cwd directory (url request)) = Some (Faulty errno) ->
      errno <> "EACCES" -> errno <> "EISDIR" -> errno <> "ENOENT" ->
      getStaticFile cwd fs contentType request directory w
      = (Abrupt (ThrowHttp (httpError 500 "Internal Server Error")),
         withStderr (ThrowError (Some errno) "read failed")
           (withRead (urlToPath cwd directory (url request)) w))).
Proof.
intros Hbase. rewrite <- parse_name_dot in Hbase.
split; [| split].
- now apply getStaticFile_missing.
- now apply getStaticFile_unreadable.
- intros errno. now apply getStaticFile_faulty.
Qed.

(** X5.  [getStaticFile] leaves the response, the [next] flag and stdout as
  they were, reads at most one path, and logs at most one error. *)
Theorem resolver_touches_no_response (request : Request) (directory : option string)
  (w : World) :
response (getStaticFile cwd fs contentType request directory w).2 = response w
/\ next (getStaticFile cwd fs contentType request directory w).2 = next w
/\ stdout (getStaticFile cwd fs contentType request directory w).2 = stdout w
/\ (length (newReads w (getStaticFile cwd fs contentType request directory w).2) <= 1)%nat
/\ (stderr (getStaticFile cwd fs contentType request directory w).2 = stderr w
    \/ exists error,
         stderr (getStaticFile cwd fs contentType request directory w).2
         = stderr w ++ [error]).
Proof.
rewrite getStaticFile_newReads.
destruct (startsWith (Path.name (Path.parse (urlToPath cwd directory (url request)))) ".")
  eqn:Hname.
- rewrite getStaticFile_dot by assumption. simpl. repeat split; auto.
- unfold getStaticFile, tryCatch, bind. rewrite Hname. unfold readFile.
  destruct (fs _) as [[content| | |errno]|]; simpl;
    repeat match goal with
           | |- context [bool_decide ?P] => destruct (bool_decide P)
           end;
    unfold consoleError, modifyWorld, bind; simpl;
    rewrite ?throwNewHttpError_world; simpl; repeat split; eauto.
Qed.

End ResolverExtras.

Lemma directory_url_is_its_index_url_witness :
  urlToPath Scenario.cwd (Some "public") "/.git/"
  = urlToPath Scenario.cwd (Some "public") ("/.git/" +:+ "index.html")
  /\ (forall verb content w,
        Scenario.fs (urlToPath Scenario.cwd (Some "public") "/.git/") = Some (File content) ->
        getStaticFile Scenario.cwd Scenario.fs Scenario.contentType
          {| url := "/.git/"; method := verb |} (Some "public") w
        = getStaticFile Scenario.cwd Scenario.fs Scenario.contentType
            {| url := "/.git/" +:+ "index.html"; method := verb |} (Some "public") w).
Proof.
  apply (directory_url_is_its_index_url Scenario.cwd Scenario.fs Scenario.contentType
           (Some "public") "/.git/"). reflexivity.
Defined.

Lemma read_failures_are_mapped_witness :
  getStaticFile Scenario.cwd troubledFs Scenario.contentType
    (Scenario.get "/missing.txt") (Some "public") initialWorld
  = (Abrupt (ThrowHttp (httpError 404 "Not Found")),
     withRead "/home/app/public/missing.txt" initialWorld)
  /\ getStaticFile Scenario.cwd troubledFs Scenario.contentType
       (Scenario.get "/locked.txt") (Some "public") initialWorld
     = (Abrupt (ThrowHttp (httpError 403 "Forbidden")),
        withRead "/home/app/public/locked.txt" initialWorld)
  /\ getStaticFile Scenario.cwd troubledFs Scenario.contentType
       (Scenario.get "/broken.txt") (Some "public") initialWorld
     = (Abrupt (ThrowHttp (httpError 500 "Internal Server Error")),
        withStderr (ThrowError (Some "EIO") "read failed")
          (withRead "/home/app/public/broken.txt" initialWorld)).
Proof.
  split; [| split].
  - apply (proj1 (read_failures_are_mapped Scenario.cwd troubledFs Scenario.contentType
                    (Scenario.get "/missing.txt") (Some "public") initialWorld
                    eq_refl)).
    reflexivity.
  - apply (proj1 (proj2 (read_failures_are_mapped Scenario.cwd troubledFs
                           Scenario.contentType (Scenario.get "/locked.txt")
                           (Some "public") initialWorld eq_refl))).
    reflexivity.
  - apply (proj2 (proj2 (read_failures_are_mapped Scenario.cwd troubledFs
                           Scenario.contentType (Scenario.get "/broken.txt")
                           (Some "public") initialWorld eq_refl)) "EIO");
      [reflexivity | discriminate | discriminate | discriminate].
Defined.

(** ** More on the static handler *)

Section StaticHandlerExtras.
Variable cwd : string.
Variable fs : string -> option Entry.
Variable contentType : string -> HeaderValue.

(** X6.  When the file is missing, the static handler does what [next] does,
  in the world where the one read was made: it defers, whatever [next]
  is, and writes nothing itself. *)
Theorem static_handler_defers_missing_file (request : Request)
  (directory : option string) (continue : M unit) (w : World) :
startsWith (Path.base (Path.parse (urlToPath cwd directory (url request)))) "." = false ->
fs (urlToPath cwd directory (url request)) = None ->
createStaticHandler cwd fs contentType directory request continue w
= continue (withRead (urlToPath cwd directory (url request)) w).
Proof.
intros Hbase Hfs. rewrite <- parse_name_dot in Hbase.
unfold createStaticHandler, tryCatch, bind.
rewrite (getStaticFile_missing _ _ _ _ _ _ Hbase Hfs).
reflexivity.
Qed.

(** X7.  On a response without header block, a file that is there is
  written out in full: status 200, the content type the MIME table gave
  (entered over the headers set before), the file's bytes, and the
  response ended; [next] is not called. *)
Theorem static_handler_serves_file (request : Request) (directory : option string)
  (continue : M unit) (w : World) (c : Z) (table : gmap string HeaderValue)
  (content : string) (v : HeaderValue) :
response w = Response.Open c table ->
startsWith (Path.base (Path.parse (urlToPath cwd directory (url request)))) "." = false ->
fs (urlToPath cwd directory (url request)) = Some (File content) ->
contentType (Path.ext (Path.parse (urlToPath cwd directory (url request)))) = v ->
v <> HvUndefined ->
createStaticHandler cwd fs contentType directory request continue w
= (Normal tt,
   withResponse (Response.Finished 200 (<["content-type" := v]> table) content)
     (withRead (urlToPath cwd directory (url request)) w)).
Proof.
intros Hopen Hbase Hfs <- Hdef. rewrite <- parse_name_dot in Hbase.
unfold createStaticHandler, tryCatch, bind.
rewrite (getStaticFile_file _ _ _ _ _ _ Hbase _ Hfs).
unfold responseWriteHead. cbn [StaticFile.statusCode StaticFile.headers StaticFile.body].
cbn [response withRead]. rewrite Hopen.
destruct (contentType _); [| | congruence]; reflexivity.
Qed.

(** X8.  On a response without header block, a directory asked for without
  the trailing slash is answered by a redirect: status 302, [Location]
  the URL followed by a slash, no body, the response ended. *)
Theorem static_handler_redirects_directory (request : Request)
  (directory : option string) (continue : M unit) (w : World) (c : Z)
  (table : gmap string HeaderValue) :
response w = Response.Open c table ->
startsWith (Path.base (Path.parse (urlToPath cwd directory (url request)))) "." = false ->
fs (urlToPath cwd directory (url request)) = Some Directory ->
createStaticHandler cwd fs contentType directory request continue w
= (Normal tt,
   withResponse
     (Response.Finished 302 (<["location" := HvString (url request +:+ "/")]> table) "")
     (withRead (urlToPath cwd directory (url request)) w)).
Proof.
intros Hopen Hbase Hfs. rewrite <- parse_name_dot in Hbase.
unfold createStaticHandler, tryCatch, bind.
rewrite (getStaticFile_directory _ _ _ _ _ _ Hbase Hfs).
unfold responseWriteHead. cbn [StaticFile.statusCode StaticFile.headers StaticFile.body].
cbn [response withRead]. rewrite Hopen. reflexivity.
Qed.

(** X9.  A dotfile is refused by the static handler itself: it does not
  defer, so with the static handler first no later handler is asked, and
  the answer is 403 "Forbidden". *)
Theorem dotfile_is_not_deferred (request : Request) (directory : option string)
  (rest : list Handler) (w : World) (c : Z) (table : gmap string HeaderValue) :
response w = Response.Open c table ->
startsWith (Path.base (Path.parse (urlToPath cwd directory (url request)))) "." = true ->
createRequestListener (createStaticHandler cwd fs contentType directory :: rest) request w
= (Normal tt,
   withResponse (Response.Finished 403 (plainText table) "Forbidden")
     (withStdout (Red, 403, url request) (withNext false w))).
Proof.
intros Hopen Hbase. rewrite <- parse_name_dot in Hbase.
assert (Hrun : runHandlers (createStaticHandler cwd fs contentType directory :: rest)
                 request w
               = (Abrupt (ThrowHttp (httpError 403 "Forbidden")), withNext false w)).
{ rewrite runHandlers_cons. unfold createStaticHandler, tryCatch, bind.
  rewrite (getStaticFile_dot _ _ _ _ _ _ Hbase). reflexivity. }
rewrite (listener_http_error _ _ _ _ _ Hrun).
rewrite (renderError_open _ _ c table); [reflexivity | exact Hopen | simpl; lia].
Qed.

(** X11.  A missing file falls through: with the response not ended, the
  loop goes on to the handlers after the static handler, in the world
  where the one read was made and nothing was written. *)
Theorem missing_file_falls_through (request : Request) (directory : option string)
  (rest : list Handler) (w : World) :
Response.writableEnded (response w) = false ->
startsWith (Path.base (Path.parse (urlToPath cwd directory (url request)))) "." = false ->
fs (urlToPath cwd directory (url request)) = None ->
runHandlers (createStaticHandler cwd fs contentType directory :: rest) request w
= runHandlers rest request
    (withNext true (withRead (urlToPath cwd directory (url request)) (withNext false w))).
Proof.
intros Hend Hbase Hfs. rewrite <- parse_name_dot in Hbase.
rewrite runHandlers_cons. unfold createStaticHandler, tryCatch, bind.
rewrite (getStaticFile_missing _ _ _ _ _ _ Hbase Hfs).
rewrite bool_decide_eq_true_2 by reflexivity.
unfold modifyWorld. cbn [next response withNext withRead negb orb].
rewrite Hend. reflexivity.
Qed.

End StaticHandlerExtras.

Lemma static_handler_defers_missing_file_witness :
  createStaticHandler Scenario.cwd Scenario.fs Scenario.contentType (Some "public")
    (Scenario.get "/missing.txt") (modifyWorld (withNext true)) initialWorld
  = modifyWorld (withNext true)
      (withRead (urlToPath Scenario.cwd (Some "public") (url (Scenario.get "/missing.txt")))
         initialWorld).
Proof.
  apply (static_handler_defers_missing_file Scenario.cwd Scenario.fs Scenario.contentType
           (Scenario.get "/missing.txt") (Some "public") (modifyWorld (withNext true))
           initialWorld); reflexivity.
Defined.

Lemma static_handler_serves_file_witness :
  createStaticHandler Scenario.cwd Scenario.fs Scenario.contentType (Some "public")
    (Scenario.get "/") (modifyWorld (withNext true)) initialWorld
  = (Normal tt,
     withResponse
       (Response.Finished 200
          (<["content-type" := HvString "text/html; charset=utf-8"]> ∅) "<h1>hi</h1>")
       (withRead (urlToPath Scenario.cwd (Some "public") (url (Scenario.get "/")))
          initialWorld)).
Proof.
  apply (static_handler_serves_file Scenario.cwd Scenario.fs Scenario.contentType
           (Scenario.get "/") (Some "public") (modifyWorld (withNext true))
           initialWorld 200 ∅ "<h1>hi</h1>" (HvString "text/html; charset=utf-8"));
    reflexivity || discriminate.
Defined.

Lemma static_handler_redirects_directory_witness :
  createStaticHandler Scenario.cwd Scenario.fs Scenario.contentType (Some "public")
    (Scenario.get "/docs") (modifyWorld (withNext true)) initialWorld
  = (Normal tt,
     withResponse
       (Response.Finished 302
          (<["location" := HvString (url (Scenario.get "/docs") +:+ "/")]> ∅) "")
       (withRead (urlToPath Scenario.cwd (Some "public") (url (Scenario.get "/docs")))
          initialWorld)).
Proof.
  apply (static_handler_redirects_directory Scenario.cwd Scenario.fs Scenario.contentType
           (Scenario.get "/docs") (Some "public") (modifyWorld (withNext true))
           initialWorld 200 ∅); reflexivity.
Defined.

Lemma dotfile_is_not_deferred_witness :
  createRequestListener
    (createStaticHandler Scenario.cwd Scenario.fs Scenario.contentType (Some "public")
       :: [Scenario.hello])
    (Scenario.get "/.env") initialWorld
  = (Normal tt,
     withResponse (Response.Finished 403 (plainText ∅) "Forbidden")
       (withStdout (Red, 403, url (Scenario.get "/.env")) (withNext false initialWorld))).
Proof.
  apply (dotfile_is_not_deferred Scenario.cwd Scenario.fs Scenario.contentType
           (Scenario.get "/.env") (Some "public") [Scenario.hello] initialWorld 200 ∅);
    reflexivity.
Defined.

Lemma static_listener_answers_witness :
  exists w',
    createRequestListener
      [createStaticHandler Scenario.cwd troubledFs Scenario.contentType (Some "public")]
      (Scenario.get "/broken.txt") initialWorld
    = (Normal tt, w')
    /\ Response.writableEnded (response w') = true.
Proof.
  apply (static_listener_answers Scenario.cwd troubledFs Scenario.contentType
           (Scenario.get "/broken.txt") (Some "public") initialWorld 200 ∅).
  reflexivity.
Defined.

Lemma missing_file_falls_through_witness :
  runHandlers
    (createStaticHandler Scenario.cwd Scenario.fs Scenario.contentType (Some "public")
       :: [Scenario.hello])
    (Scenario.get "/missing.txt") initialWorld
  = runHandlers [Scenario.hello] (Scenario.get "/missing.txt")
      (withNext true
         (withRead (urlToPath Scenario.cwd (Some "public") (url (Scenario.get "/missing.txt")))
            (withNext false initialWorld))).
Proof.
  apply (missing_file_falls_through Scenario.cwd Scenario.fs Scenario.contentType
           (Scenario.get "/missing.txt") (Some "public") [Scenario.hello] initialWorld);
    reflexivity.
Defined.

(** ** More on the request listener *)

Section ListenerExtras.

(** The render step changes the response only, and when it throws it
  changes nothing and throws one of [writeHead]'s errors. *)
Lemma renderError_logs (error : Thrown) (w : World) :
stdout (renderError error w).2 = stdout w /\ stderr (renderError error w).2 = stderr w.
Proof.
unfold renderError, bind, responseWriteHead.
destruct (Response.writeHead _ _ _); simpl; auto.
Qed.

Lemma renderError_abrupt (error thrown : Thrown) (w w' : World) :
renderError error w = (Abrupt thrown, w') ->
(thrown = Response.ERR_HTTP_HEADERS_SENT
 \/ thrown = Response.ERR_HTTP_INVALID_STATUS_CODE)
/\ w' = w.
Proof.
unfold renderError, bind, responseWriteHead, Response.writeHead.
destruct (response w) as [c table|c table b|c table b].
- destruct (statusCodeOf error) as [code|].
  + destruct ((code <? 100) || (code >? 999)).
    * intros [= <- <-]. auto.
    * simpl. discriminate.
  + intros [= <- <-]. auto.
- intros [= <- <-]. auto.
- intros [= <- <-]. auto.
Qed.

(** X12.  An [HttpError] a handler throws before any header block is written
  is answered with its own status code and reason phrase, as text/plain,
  and logged to stdout in red. *)
Theorem handler_http_error_is_rendered (handlers : list Handler) (request : Request)
  (w w1 : World) (code : Z) (args : list string) (e : HttpError.t)
  (c : Z) (table : gmap string HeaderValue) :
newHttpError (Some code) args = inr e ->
runHandlers handlers request w = (Abrupt (ThrowHttp e), w1) ->
response w1 = Response.Open c table ->
createRequestListener handlers request w
= (Normal tt,
   withResponse
     (Response.Finished code (plainText table) (default "" (STATUS_CODES !! code)))
     (withStdout (Red, code, url request) w1)).
Proof.
intros Hnew Hrun Hopen.
unfold newHttpError in Hnew. change (default 400 (Some code)) with code in Hnew.
destruct (code <? 400) eqn:E1; [discriminate |].
destruct (code >? 599) eqn:E2; [discriminate |].
cbn [orb] in Hnew. injection Hnew as <-.
rewrite (listener_http_error _ _ _ _ _ Hrun).
rewrite (renderError_open _ _ c table); [| exact Hopen | cbn [HttpError.statusCode]; lia].
cbn [HttpError.statusCode HttpError.statusMessage]. unfold color.
destruct (code <? 200) eqn:E3; [lia |].
destruct (code <? 300) eqn:E4; [lia |].
destruct (code <? 400) eqn:E5; [lia |]. reflexivity.
Qed.

(** X13.  The first handler decides unless it completes normally with [next]
  called and the response not ended: when it throws, does not call
  [next], or ends the response, the handlers after it change nothing. *)
Theorem deciding_handler_hides_the_rest (handler : Handler) (rest : list Handler)
  (request : Request) (w : World) :
match handler request (modifyWorld (withNext true)) (withNext false w) with
| (Normal _, w1) => negb (next w1) || Response.writableEnded (response w1) = true
| (Abrupt _, _) => True
end ->
createRequestListener (handler :: rest) request w
= createRequestListener [handler] request w.
Proof.
intros H.
assert (Hrun : runHandlers (handler :: rest) request w = runHandlers [handler] request w).
{ rewrite !runHandlers_cons.
  destruct (handler request _ (withNext false w)) as [[[]|error] w1]; [| reflexivity].
  now rewrite H. }
unfold createRequestListener, tryCatch, bind. now rewrite Hrun.
Qed.

(** X14.  Beyond what the handlers logged, the listener logs exactly one
  entry for the request, on stdout or on stderr. *)
Theorem listener_logs_one_entry (handlers : list Handler) (request : Request) (w : World) :
(length (stdout (createRequestListener handlers request w).2)
 + length (stderr (createRequestListener handlers request w).2)
 = length (stdout (runHandlers handlers request w).2)
   + length (stderr (runHandlers handlers request w).2) + 1)%nat.
Proof.
destruct (runHandlers handlers request w) as [[[]|[e|code message]] w1] eqn:Hrun.
- destruct (Response.writableEnded (response w1)) eqn:Hend.
  + rewrite (listener_ended _ _ _ _ Hrun Hend). simpl. rewrite length_app. simpl. lia.
  + rewrite (listener_not_ended _ _ _ _ Hrun Hend).
    destruct (renderError_logs (ThrowHttp (httpError 404 "Not Found"))
                (withStdout (Red, 404, url request) w1)) as [-> ->].
    simpl. rewrite length_app. simpl. lia.
- rewrite (listener_http_error _ _ _ _ _ Hrun).
  destruct (renderError_logs (ThrowHttp e)
              (withStdout (color (HttpError.statusCode e), url request) w1)) as [-> ->].
  simpl. rewrite length_app. simpl. lia.
- rewrite (listener_other_error _ _ _ _ _ _ Hrun).
  destruct (renderError_logs (ThrowHttp (httpError 500 "Internal Server Error"))
              (withStderr (ThrowError code message) w1)) as [-> ->].
  simpl. rewrite length_app. simpl. lia.
Qed.

(** X15.  What a handler throws never leaves the listener.  When the listener
  itself completes abruptly, the error is one [writeHead] raised in the
  render step (header block already written, or a status code out of
  range), and the response is as the handlers left it. *)
Theorem listener_throws_only_render_errors (handlers : list Handler) (request : Request)
  (w w' : World) (thrown : Thrown) :
createRequestListener handlers request w = (Abrupt thrown, w') ->
(thrown = Response.ERR_HTTP_HEADERS_SENT
 \/ thrown = Response.ERR_HTTP_INVALID_STATUS_CODE)
/\ response w' = response (runHandlers handlers request w).2.
Proof.
destruct (runHandlers handlers request w) as [[[]|[e|code message]] w1] eqn:Hrun.
- destruct (Response.writableEnded (response w1)) eqn:Hend.
  + rewrite (listener_ended _ _ _ _ Hrun Hend). discriminate.
  + rewrite (listener_not_ended _ _ _ _ Hrun Hend). intros H.
    apply renderError_abrupt in H as [H ->]. auto.
- rewrite (listener_http_error _ _ _ _ _ Hrun). intros H.
  apply renderError_abrupt in H as [H ->]. auto.
- rewrite (listener_other_error _ _ _ _ _ _ Hrun). intros H.
  apply renderError_abrupt in H as [H ->]. auto.
Qed.

End ListenerExtras.

(** A handler that refuses every request with [HttpError(401)]. *)
Lemma handler_http_error_is_rendered_witness :
  createRequestListener
    [fun _ _ => throw (ThrowHttp (httpError 401 "Unauthorized"))]
    (Scenario.get "/admin") initialWorld
  = (Normal tt,
     withResponse
       (Response.Finished 401 (plainText ∅) (default "" (STATUS_CODES !! 401)))
       (withStdout (Red, 401, url (Scenario.get "/admin")) (withNext false initialWorld))).
Proof.
  apply (handler_http_error_is_rendered
           [fun _ _ => throw (ThrowHttp (httpError 401 "Unauthorized"))]
           (Scenario.get "/admin") initialWorld (withNext false initialWorld)
           401 [] (httpError 401 "Unauthorized") 200 ∅);
    vm_compute; reflexivity.
Defined.

Lemma deciding_handler_hides_the_rest_witness :
  createRequestListener (Scenario.idle :: [Scenario.hello]) (Scenario.get "/") initialWorld
  = createRequestListener [Scenario.idle] (Scenario.get "/") initialWorld.
Proof.
  apply (deciding_handler_hides_the_rest Scenario.idle [Scenario.hello]
           (Scenario.get "/") initialWorld).
  reflexivity.
Defined.

Lemma listener_throws_only_render_errors_witness :
  (Response.ERR_HTTP_HEADERS_SENT = Response.ERR_HTTP_HEADERS_SENT
   \/ Response.ERR_HTTP_HEADERS_SENT = Response.ERR_HTTP_INVALID_STATUS_CODE)
  /\ response
       (createRequestListener [Scenario.respondThenThrow] (Scenario.get "/") initialWorld).2
     = response (runHandlers [Scenario.respondThenThrow] (Scenario.get "/") initialWorld).2.
Proof.
  apply (listener_throws_only_render_errors [Scenario.respondThenThrow] (Scenario.get "/")
           initialWorld
           (createRequestListener [Scenario.respondThenThrow] (Scenario.get "/")
              initialWorld).2
           Response.ERR_HTTP_HEADERS_SENT).
  vm_compute. reflexivity.
Defined.

(** ** Server start-up *)

Section BootstrapFacts.
Variable cwd : string.
Variable stat : string -> Stat.
Variable fs : string -> option Entry.
Variable contentType : string -> HeaderValue.

(** X16.  The server listens only in two cases: the directory is the empty
  string, and the handlers are the caller's alone; or [fs.stat] found a
  directory at the resolved path, and the handlers are the caller's
  followed by the static handler of that directory, last.  The listen
  options are passed on as given. *)
Theorem server_listens_on_checked_directory (config : Config.t) (hs : list Handler)
  (h p : option string) (v : bool) :
staticServer cwd stat fs contentType config = Listening hs h p v ->
((default "." (Config.directory config) = ""
  /\ hs = default [] (Config.handlers config))
 \/ (default "." (Config.directory config) <> ""
     /\ stat (Path.resolve cwd (default "." (Config.directory config))) = IsDirectory
     /\ hs = default [] (Config.handlers config)
             ++ [createStaticHandler cwd fs contentType
                   (Some (default "." (Config.directory config)))]))
/\ h = Config.host config /\ p = Config.port config /\ v = Config.ipv6Only config.
Proof.
unfold staticServer, checkDirectory.
destruct (bool_decide (default "." (Config.directory config) = "")) eqn:Hempty.
- apply bool_decide_eq_true in Hempty. intros [= <- <- <- <-]. auto.
- apply bool_decide_eq_false in Hempty.
  destruct (stat _) as [| |code message] eqn:Hstat.
  + intros [= <- <- <- <-]. split; [right |]; auto.
  + simpl. discriminate.
  + cbn [codeOf].
    destruct (bool_decide (code = Some "ENOENT")); [discriminate |].
    destruct (bool_decide (code = Some "EACCES")); discriminate.
Qed.

(** X17.  With a directory that is not the empty string, every failed check
  ends the start-up with [exit(1)] and no server: "directory not found"
  and "permission denied" name the directory as it was given, something
  that is not a directory is reported as such, and any other failure of
  [fs.stat] with its own message. *)
Theorem failed_directory_check_exits (config : Config.t) :
default "." (Config.directory config) <> "" ->
(stat (Path.resolve cwd (default "." (Config.directory config))) = NotDirectory ->
 staticServer cwd stat fs contentType config = Exited 1 "not a directory")
/\ (forall message,
      stat (Path.resolve cwd (default "." (Config.directory config)))
      = StatFails (Some "ENOENT") message ->
      staticServer cwd stat fs contentType config
      = Exited 1 ("directory not found " +:+ default "." (Config.directory config)))
/\ (forall message,
      stat (Path.resolve cwd (default "." (Config.directory config)))
      = StatFails (Some "EACCES") message ->
      staticServer cwd stat fs contentType config
      = Exited 1 ("permission denied " +:+ default "." (Config.directory config)))
/\ (forall code message,
      stat (Path.resolve cwd (default "." (Config.directory config)))
      = StatFails code message ->
      code <> Some "ENOENT" -> code <> Some "EACCES" ->
      staticServer cwd stat fs contentType config = Exited 1 message).
Proof.
intros Hne. unfold staticServer, checkDirectory.
rewrite (bool_decide_eq_false_2 _ Hne).
repeat split.
- intros ->. reflexivity.
- intros message ->. reflexivity.
- intros message ->. reflexivity.
- intros code message -> H1 H2. cbn [codeOf].
  now rewrite !bool_decide_eq_false_2 by assumption.
Qed.

End BootstrapFacts.

Lemma server_listens_on_checked_directory_witness :
  ((default "." (Config.directory (serve "public")) = ""
    /\ [createStaticHandler Scenario.cwd Scenario.fs Scenario.contentType (Some "public")]
       = default [] (Config.handlers (serve "public")))
   \/ (default "." (Config.directory (serve "public")) <> ""
       /\ exampleStat
            (Path.resolve Scenario.cwd (default "." (Config.directory (serve "public"))))
          = IsDirectory
       /\ [createStaticHandler Scenario.cwd Scenario.fs Scenario.contentType (Some "public")]
          = default [] (Config.handlers (serve "public"))
              ++ [createStaticHandler Scenario.cwd Scenario.fs Scenario.contentType
                    (Some (default "." (Config.directory (serve "public"))))]))
  /\ None = Config.host (serve "public")
  /\ None = Config.port (serve "public")
  /\ false = Config.ipv6Only (serve "public").
Proof.
  apply (server_listens_on_checked_directory Scenario.cwd exampleStat Scenario.fs
           Scenario.contentType (serve "public")
           [createStaticHandler Scenario.cwd Scenario.fs Scenario.contentType (Some "public")]
           None None false).
  reflexivity.
Defined.

Lemma failed_directory_check_exits_witness :
  staticServer Scenario.cwd exampleStat Scenario.fs Scenario.contentType (serve "README.md")
  = Exited 1 "not a directory"
  /\ staticServer Scenario.cwd exampleStat Scenario.fs Scenario.contentType (serve "dist")
     = Exited 1 "directory not found dist"
  /\ staticServer Scenario.cwd exampleStat Scenario.fs Scenario.contentType (serve "private")
     = Exited 1 "permission denied private"
  /\ staticServer Scenario.cwd exampleStat Scenario.fs Scenario.contentType (serve "loop")
     = Exited 1 "ELOOP: too many symbolic links encountered, stat".
Proof.
  split; [| split; [| split]].
  - apply (proj1 (failed_directory_check_exits Scenario.cwd exampleStat Scenario.fs
                    Scenario.contentType (serve "README.md") ltac:(discriminate))).
    reflexivity.
  - apply (proj1 (proj2 (failed_directory_check_exits Scenario.cwd exampleStat Scenario.fs
                           Scenario.contentType (serve "dist") ltac:(discriminate)))
             "ENOENT: no such file or directory, stat").
    reflexivity.
  - apply (proj1 (proj2 (proj2 (failed_directory_check_exits Scenario.cwd exampleStat
                                  Scenario.fs Scenario.contentType (serve "private")
                                  ltac:(discriminate))))
             "EACCES: permission denied, stat").
    reflexivity.
  - apply (proj2 (proj2 (proj2 (failed_directory_check_exits Scenario.cwd exampleStat
                                  Scenario.fs Scenario.contentType (serve "loop")
                                  ltac:(discriminate))))
             (Some "ELOOP") "ELOOP: too many symbolic links encountered, stat");
      [reflexivity | discriminate | discriminate].
Defined.

(** ** The command line *)

Section CliFacts.
Import Cli.

Lemma isFlag_true (flag short long : string) :
isFlag flag short long = true -> flag = short \/ flag = long.
Proof.
unfold isFlag. intros H. apply orb_prop in H as [H | H];
  apply bool_decide_eq_true in H; auto.
Qed.

Lemma isFlag_false (flag short long : string) :
isFlag flag short long = false -> flag <> short /\ flag <> long.
Proof.
unfold isFlag. intros H. apply orb_false_elim in H as [H1 H2].
apply bool_decide_eq_false in H1, H2. auto.
Qed.

(** The loop, one flag at a time. *)
Ltac flag_cases flag :=
destruct (isFlag flag "-V" "--version") eqn:EV;
[| destruct (isFlag flag "-h" "--help") eqn:Eh;
   [| destruct (isFlag flag "-6" "--ipv6") eqn:E6;
      [| destruct (isFlag flag "-d" "--directory") eqn:Ed;
         [| destruct (isFlag flag "-H" "--host") eqn:EH;
            [| destruct (isFlag flag "-p" "--port") eqn:Ep]]]]].

Lemma takesValue_ipv6 (flag : string) :
isFlag flag "-6" "--ipv6" = true -> takesValue flag = false.
Proof. intros H. apply isFlag_true in H as [-> | ->]; reflexivity. Qed.

(** Induction on arguments, two at a time where a flag takes a value. *)
Lemma pair_ind (P : list string -> Prop) :
P [] ->
(forall flag rest, P rest -> (forall value rest', rest = value :: rest' -> P rest') ->
                   P (flag :: rest)) ->
forall args, P args.
Proof.
intros Hnil Hcons.
assert (H : forall args, P args /\ (forall value rest', args = value :: rest' -> P rest')).
{ induction args as [|a args [IH1 IH2]].
  - split; [exact Hnil | discriminate].
  - split.
    + apply Hcons; assumption.
    + intros value rest' [= _ <-]. exact IH1. }
intros args. apply H.
Qed.

(** Reading complete arguments and then more. *)
Lemma parseArgs_app (pre more : list string) (o : Options) :
complete pre = true ->
parseArgs (pre ++ more) o
= match parseArgs pre o with
  | Run o' => parseArgs more o'
  | Exit code printed => Exit code printed
  end.
Proof.
revert o. induction pre as [|flag rest IH IH2] using pair_ind; intros o Hc.
- reflexivity.
- cbn [app parseArgs complete] in *. flag_cases flag.
  + reflexivity.
  + reflexivity.
  + rewrite (takesValue_ipv6 _ E6) in Hc. now apply IH.
  + unfold takesValue in Hc. rewrite Ed in Hc. cbn [orb] in Hc.
    destruct rest as [|value rest']; [discriminate |]. cbn [app].
    now apply (IH2 value rest').
  + unfold takesValue in Hc. rewrite Ed, EH in Hc. cbn [orb] in Hc.
    destruct rest as [|value rest']; [discriminate |]. cbn [app].
    now apply (IH2 value rest').
  + unfold takesValue in Hc. rewrite Ed, EH, Ep in Hc. cbn [orb] in Hc.
    destruct rest as [|value rest']; [discriminate |]. cbn [app].
    now apply (IH2 value rest').
  + reflexivity.
Qed.

(** X18.  Arguments compose: reading complete arguments and then more is
  reading the more over the options the first left; and when the first
  exit, what follows them is never looked at. *)
Theorem arguments_compose (pre more : list string) (o : Options) :
complete pre = true ->
(forall o1, parseArgs pre o = Run o1 -> parseArgs (pre ++ more) o = parseArgs more o1)
/\ (forall code printed,
      parseArgs pre o = Exit code printed ->
      parseArgs (pre ++ more) o = Exit code printed).
Proof.
intros Hc. split.
- intros o1 H. now rewrite parseArgs_app, H.
- intros code printed H. now rewrite parseArgs_app, H.
Qed.

(** X19.  The loop exits in three ways only: with code 0 after printing the
  version, with code 0 after printing the usage, or with code 1 after
  reporting as unknown one of the arguments, which is none of the flags. *)
Theorem exit_is_version_help_or_unknown (args : list string) (o : Options)
  (code : Z) (printed : Printed) :
parseArgs args o = Exit code printed ->
(code = 0 /\ printed = PrintedVersion version)
\/ (code = 0 /\ printed = PrintedUsage)
\/ (code = 1
    /\ exists flag, flag ∈ args
                    /\ printed = PrintedError ("Unknown argument " +:+ flag)
                    /\ takesValue flag = false
                    /\ isFlag flag "-V" "--version" = false
                    /\ isFlag flag "-h" "--help" = false
                    /\ isFlag flag "-6" "--ipv6" = false).
Proof.
revert o. induction args as [|flag rest IH IH2] using pair_ind; intros o.
- discriminate.
- assert (Hrest : forall o', parseArgs rest o' = Exit code printed ->
            (code = 0 /\ printed = PrintedVersion version)
            \/ (code = 0 /\ printed = PrintedUsage)
            \/ (code = 1
                /\ exists flag0, flag0 ∈ flag :: rest
                     /\ printed = PrintedError ("Unknown argument " +:+ flag0)
                     /\ takesValue flag0 = false
                     /\ isFlag flag0 "-V" "--version" = false
                     /\ isFlag flag0 "-h" "--help" = false
                     /\ isFlag flag0 "-6" "--ipv6" = false)).
  { intros o' H. destruct (IH o' H) as [? | [? | [? (f & Hin & ?)]]]; auto.
    right. right. split; [assumption |]. exists f. split; [now right | assumption]. }
  assert (Hrest' : forall value rest' o', rest = value :: rest' ->
            parseArgs rest' o' = Exit code printed ->
            (code = 0 /\ printed = PrintedVersion version)
            \/ (code = 0 /\ printed = PrintedUsage)
            \/ (code = 1
                /\ exists flag0, flag0 ∈ flag :: rest
                     /\ printed = PrintedError ("Unknown argument " +:+ flag0)
                     /\ takesValue flag0 = false
                     /\ isFlag flag0 "-V" "--version" = false
                     /\ isFlag flag0 "-h" "--help" = false
                     /\ isFlag flag0 "-6" "--ipv6" = false)).
  { intros value rest' o' -> H.
    destruct (IH2 value rest' eq_refl o' H) as [? | [? | [? (f & Hin & ?)]]]; auto.
    right. right. split; [assumption |]. exists f.
    split; [now right; right | assumption]. }
  cbn [parseArgs]. flag_cases flag.
  + intros [= <- <-]. auto.
  + intros [= <- <-]. auto.
  + apply Hrest.
  + destruct rest as [|value rest']; [discriminate |]. now apply (Hrest' value rest').
  + destruct rest as [|value rest']; [discriminate |]. now apply (Hrest' value rest').
  + destruct rest as [|value rest']; [discriminate |]. now apply (Hrest' value rest').
  + intros [= <- <-]. right. right. split; [reflexivity |].
    exists flag. split; [now left |]. split; [reflexivity |].
    unfold takesValue. rewrite Ed, EH, Ep. auto.
Qed.

Ltac keep_field :=
let N1 := fresh "N" in
let N2 := fresh "N" in
intros N1 N2;
repeat (apply not_elem_of_cons in N1 as [? N1]);
repeat (apply not_elem_of_cons in N2 as [? N2]);
first
  [ reflexivity
  | match goal with E : _ = _ \/ _ = _ |- _ => destruct E; congruence end
  | match goal with
    | H : _ ∉ _ -> _ ∉ _ -> ?f _ = _ |- ?f _ = _ => rewrite (H N1 N2); reflexivity
    end ].

(** X20.  An option whose flag does not occur among the arguments keeps the
  value it had (the one of the environment). *)
Theorem unnamed_option_keeps_its_value (args : list string) (o o' : Options) :
parseArgs args o = Run o' ->
("-d" ∉ args -> "--directory" ∉ args -> directory o' = directory o)
/\ ("-H" ∉ args -> "--host" ∉ args -> host o' = host o)
/\ ("-p" ∉ args -> "--port" ∉ args -> port o' = port o)
/\ ("-6" ∉ args -> "--ipv6" ∉ args -> ipv6Only o' = ipv6Only o).
Proof.
revert o. induction args as [|flag rest IH IH2] using pair_ind; intros o.
- intros [= <-]. auto.
- cbn [parseArgs]. flag_cases flag.
  + discriminate.
  + discriminate.
  + intros H. destruct (IH _ H) as (Hd & Hh & Hp & H6).
    apply isFlag_true in E6. repeat split; keep_field.
  + apply isFlag_true in Ed. destruct rest as [|value rest'].
    * intros [= <-]. repeat split; keep_field.
    * intros H. destruct (IH2 value rest' eq_refl _ H) as (Hd & Hh & Hp & H6).
      repeat split; keep_field.
  + apply isFlag_true in EH. destruct rest as [|value rest'].
    * intros [= <-]. repeat split; keep_field.
    * intros H. destruct (IH2 value rest' eq_refl _ H) as (Hd & Hh & Hp & H6).
      repeat split; keep_field.
  + apply isFlag_true in Ep. destruct rest as [|value rest'].
    * intros [= <-]. repeat split; keep_field.
    * intros H. destruct (IH2 value rest' eq_refl _ H) as (Hd & Hh & Hp & H6).
      repeat split; keep_field.
  + discriminate.
Qed.

(** X21.  A flag given last wins: after complete arguments, [-p value] (or
  [--port value]) sets the port to that value whatever the environment
  and the earlier arguments said, and changes nothing else. *)
Theorem last_port_flag_wins (pre : list string) (flag value : string) (o o1 : Options) :
complete pre = true ->
parseArgs pre o = Run o1 ->
isFlag flag "-p" "--port" = true ->
parseArgs (pre ++ [flag; value]) o = Run (withPort (Some value) o1).
Proof.
intros Hc Hpre Hflag. rewrite parseArgs_app, Hpre by assumption.
apply isFlag_true in Hflag as [-> | ->]; reflexivity.
Qed.

(** X22.  [--help] (or [-h]) in the place of a flag ends the program with
  code 0 and the usage, whatever follows it, unknown arguments included. *)
Theorem help_stops_the_loop (pre rest : list string) (flag : string) (o o1 : Options) :
complete pre = true ->
parseArgs pre o = Run o1 ->
isFlag flag "-h" "--help" = true ->
parseArgs (pre ++ flag :: rest) o = Exit 0 PrintedUsage.
Proof.
intros Hc Hpre Hflag. rewrite parseArgs_app, Hpre by assumption.
apply isFlag_true in Hflag as [-> | ->]; reflexivity.
Qed.

End CliFacts.

Section MainFacts.
Variable cwd : string.
Variable stat : string -> Stat.
Variable fs : string -> option Entry.
Variable contentType : string -> HeaderValue.


End MainFacts.

Lemma arguments_compose_witness :
  Cli.parseArgs (["-d"; "public"; "-6"] ++ ["-p"; "8080"])
    (Cli.envOptions {| Cli.STATIC_DIR := None; Cli.STATIC_HOST := None;
                       Cli.STATIC_PORT := None; Cli.PORT := Some "3000" |})
  = Cli.parseArgs ["-p"; "8080"]
      {| Cli.directory := Some "public"; Cli.host := None;
         Cli.port := Some "3000"; Cli.ipv6Only := true |}
  /\ Cli.parseArgs (["-6"; "--bogus"] ++ ["--help"])
       (Cli.envOptions {| Cli.STATIC_DIR := None; Cli.STATIC_HOST := None;
                          Cli.STATIC_PORT := None; Cli.PORT := Some "3000" |})
     = Cli.Exit 1 (Cli.PrintedError "Unknown argument --bogus").
Proof.
  split.
  - apply (proj1 (arguments_compose ["-d"; "public"; "-6"] ["-p"; "8080"] _ eq_refl)).
    reflexivity.
  - apply (proj2 (arguments_compose ["-6"; "--bogus"] ["--help"] _ eq_refl)).
    reflexivity.
Defined.

Lemma exit_is_version_help_or_unknown_witness :
  (1 = 0 /\ Cli.PrintedError "Unknown argument --bogus" = Cli.PrintedVersion Cli.version)
  \/ (1 = 0 /\ Cli.PrintedError "Unknown argument --bogus" = Cli.PrintedUsage)
  \/ (1 = 1
      /\ exists flag, flag ∈ ["-p"; "8080"; "--bogus"; "--help"]
                      /\ Cli.PrintedError "Unknown argument --bogus"
                         = Cli.PrintedError ("Unknown argument " +:+ flag)
                      /\ Cli.takesValue flag = false
                      /\ Cli.isFlag flag "-V" "--version" = false
                      /\ Cli.isFlag flag "-h" "--help" = false
                      /\ Cli.isFlag flag "-6" "--ipv6" = false).
Proof.
  apply (exit_is_version_help_or_unknown ["-p"; "8080"; "--bogus"; "--help"]
           (Cli.envOptions {| Cli.STATIC_DIR := None; Cli.STATIC_HOST := None;
                              Cli.STATIC_PORT := None; Cli.PORT := None |})
           1 (Cli.PrintedError "Unknown argument --bogus")).
  reflexivity.
Defined.

Lemma unnamed_option_keeps_its_value_witness :
  ("-d" ∉ ["-p"; "8080"; "-6"] -> "--directory" ∉ ["-p"; "8080"; "-6"] ->
   Cli.directory
     {| Cli.directory := Some "/srv/www"; Cli.host := None;
        Cli.port := Some "8080"; Cli.ipv6Only := true |}
   = Cli.directory
       (Cli.envOptions {| Cli.STATIC_DIR := Some "/srv/www"; Cli.STATIC_HOST := None;
                          Cli.STATIC_PORT := Some "3000"; Cli.PORT := None |}))
  /\ ("-H" ∉ ["-p"; "8080"; "-6"] -> "--host" ∉ ["-p"; "8080"; "-6"] ->
      Cli.host
        {| Cli.directory := Some "/srv/www"; Cli.host := None;
           Cli.port := Some "8080"; Cli.ipv6Only := true |}
      = Cli.host
          (Cli.envOptions {| Cli.STATIC_DIR := Some "/srv/www"; Cli.STATIC_HOST := None;
                             Cli.STATIC_PORT := Some "3000"; Cli.PORT := None |}))
  /\ ("-p" ∉ ["-p"; "8080"; "-6"] -> "--port" ∉ ["-p"; "8080"; "-6"] ->
      Cli.port
        {| Cli.directory := Some "/srv/www"; Cli.host := None;
           Cli.port := Some "8080"; Cli.ipv6Only := true |}
      = Cli.port
          (Cli.envOptions {| Cli.STATIC_DIR := Some "/srv/www"; Cli.STATIC_HOST := None;
                             Cli.STATIC_PORT := Some "3000"; Cli.PORT := None |}))
  /\ ("-6" ∉ ["-p"; "8080"; "-6"] -> "--ipv6" ∉ ["-p"; "8080"; "-6"] ->
      Cli.ipv6Only
        {| Cli.directory := Some "/srv/www"; Cli.host := None;
           Cli.port := Some "8080"; Cli.ipv6Only := true |}
      = Cli.ipv6Only
          (Cli.envOptions {| Cli.STATIC_DIR := Some "/srv/www"; Cli.STATIC_HOST := None;
                             Cli.STATIC_PORT := Some "3000"; Cli.PORT := None |})).
Proof.
  apply (unnamed_option_keeps_its_value ["-p"; "8080"; "-6"]). reflexivity.
Defined.

Lemma last_port_flag_wins_witness :
  Cli.parseArgs (["-p"; "8080"; "-d"; "public"] ++ ["--port"; "9090"])
    (Cli.envOptions {| Cli.STATIC_DIR := None; Cli.STATIC_HOST := None;
                       Cli.STATIC_PORT := Some "3000"; Cli.PORT := None |})
  = Cli.Run (Cli.withPort (Some "9090")
               {| Cli.directory := Some "public"; Cli.host := None;
                  Cli.port := Some "8080"; Cli.ipv6Only := false |}).
Proof.
  apply (last_port_flag_wins ["-p"; "8080"; "-d"; "public"] "--port" "9090");
    reflexivity.
Defined.

Lemma help_stops_the_loop_witness :
  Cli.parseArgs (["-d"; "--version"] ++ "-h" :: ["--bogus"])
    (Cli.envOptions {| Cli.STATIC_DIR := None; Cli.STATIC_HOST := None;
                       Cli.STATIC_PORT := None; Cli.PORT := None |})
  = Cli.Exit 0 Cli.PrintedUsage.
Proof.
  apply (help_stops_the_loop ["-d"; "--version"] ["--bogus"] "-h"
           (Cli.envOptions {| Cli.STATIC_DIR := None; Cli.STATIC_HOST := None;
                              Cli.STATIC_PORT := None; Cli.PORT := None |})
           {| Cli.directory := Some "--version"; Cli.host := None;
              Cli.port := None; Cli.ipv6Only := false |});
    reflexivity.
Defined.


